(** * Agent router and coordination planner

    A shallow embedding of [agent_router/config.py] (catalogue accessors),
    [agent_router/router.py] (the matcher) and [agent_router/coordination.py]
    (the planner), with the properties the specification states about them.

    Conventions.
    - Python [str] is [string]; the text is taken to be ASCII, so [lower]
      touches the letters A-Z only and a word character is a letter, a digit
      or the underscore.
    - Python [float] scores are rationals ([Q]).  Every score the matcher
      builds is a sum of the constants 1.0, 1.5, 2.0, 2.5, ..., 3.0 and 5.0,
      all multiples of one half, which binary floating point adds without
      rounding; the confidence is one further multiply-add on such a value,
      and the threshold [top_score * 0.6] is compared with multiples of one
      half only.
    - A Python exception is the [Raise] constructor of [res].
    - A [dict] used as a map is a [gmap], a [set] of names is a [gset]. *)

From Stdlib Require Import Ascii String QArith Qminmax Lqa.
From stdpp Require Import base option list gmap strings.

(** ** Exceptions *)

Inductive exn := IndexError | AttributeError.

Inductive res (A : Type) :=
| Ok (a : A)
| Raise (e : exn).
Arguments Ok {A} a.
Arguments Raise {A} e.

#[global] Instance res_ret : MRet res := fun A a => Ok a.

#[global] Instance res_bind : MBind res := fun A B k m =>
  match m with
  | Ok a => k a
  | Raise e => Raise e
  end.

(** ** Text primitives *)

Module Text.

Definition code (c : ascii) : nat := nat_of_ascii c.

(** [str.isspace] on one ASCII character: TAB, LF, VT, FF, CR, the four
    separators FS, GS, RS, US, and the space. *)
Definition is_space (c : ascii) : bool :=
  let n := code c in
  ((9 <=? n) && (n <=? 13)) || ((28 <=? n) && (n <=? 32)).

(** [\w] of the [re] module on ASCII text. *)
Definition is_word_char (c : ascii) : bool :=
  let n := code c in
  ((48 <=? n) && (n <=? 57)) || ((65 <=? n) && (n <=? 90))
  || (n =? 95) || ((97 <=? n) && (n <=? 122)).

Definition lower_char (c : ascii) : ascii :=
  let n := code c in
  if (65 <=? n) && (n <=? 90) then ascii_of_nat (n + 32) else c.

(** [str.lower] *)
Fixpoint lower (s : string) : string :=
  match s with
  | EmptyString => EmptyString
  | String c s' => String (lower_char c) (lower s')
  end.

(** [str.isspace]: non-empty and nothing but white space. *)
Fixpoint all_space (s : string) : bool :=
  match s with
  | EmptyString => true
  | String c s' => is_space c && all_space s'
  end.

Definition isspace (s : string) : bool :=
  match s with
  | EmptyString => false
  | _ => all_space s
  end.

Fixpoint lstrip (s : string) : string :=
  match s with
  | EmptyString => EmptyString
  | String c s' => if is_space c then lstrip s' else s
  end.

Fixpoint rstrip (s : string) : string :=
  match s with
  | EmptyString => EmptyString
  | String c s' =>
      match rstrip s' with
      | EmptyString => if is_space c then EmptyString else String c EmptyString
      | r => String c r
      end
  end.

(** [str.strip] *)
Definition strip (s : string) : string := rstrip (lstrip s).

(** [len(s.split())]: the number of maximal runs of non-space characters.
    [inside] tells whether the previous character belonged to a run. *)
Fixpoint count_words (inside : bool) (s : string) : Z :=
  match s with
  | EmptyString => 0
  | String c s' =>
      if is_space c then count_words false s'
      else ((if inside then 0 else 1) + count_words true s')%Z
  end.

Definition word_count (s : string) : Z := count_words false s.

(** [s.startswith(k)], returning what follows [k]. *)
Fixpoint strip_prefix (k s : string) : option string :=
  match k, s with
  | EmptyString, _ => Some s
  | String a k', String b s' =>
      if Ascii.eqb a b then strip_prefix k' s' else None
  | String _ _, EmptyString => None
  end.

(** The last character of [k], or [prev] when [k] is empty. *)
Fixpoint last_char (prev : option ascii) (k : string) : option ascii :=
  match k with
  | EmptyString => prev
  | String c k' => last_char (Some c) k'
  end.

End Text.

(** ** The fragment of [re] the router uses

    A pattern is a backtracking matcher in continuation-passing style.  It
    receives the character before the current position (for [\b]), the rest
    of the subject and the continuation to run on what it leaves. *)

Module Re.
Import Text.

Definition cont := option ascii -> string -> bool.
Definition pat := option ascii -> string -> cont -> bool.

Definition word_before (prev : option ascii) : bool :=
  match prev with Some c => is_word_char c | None => false end.

Definition word_after (s : string) : bool :=
  match s with String c _ => is_word_char c | EmptyString => false end.

(** [\b] *)
Definition wb : pat :=
  fun prev s k => xorb (word_before prev) (word_after s) && k prev s.

(** a literal, as [re.escape] produces it *)
Definition lit (w : string) : pat :=
  fun prev s k =>
    match strip_prefix w s with
    | Some rest => k (last_char prev w) rest
    | None => false
    end.

(** [(w1|w2|...)] *)
Definition alt (ws : list string) : pat :=
  fun prev s k => existsb (fun w => lit w prev s k) ws.

Definition conc (p q : pat) : pat :=
  fun prev s k => p prev s (fun prev' s' => q prev' s' k).

(** [.*]; the dot does not match a line feed. *)
Fixpoint dotstar (prev : option ascii) (s : string) (k : cont) : bool :=
  k prev s ||
  match s with
  | EmptyString => false
  | String c s' => negb (code c =? 10) && dotstar (Some c) s' k
  end.

(** [\s+] *)
Fixpoint spaces1 (prev : option ascii) (s : string) (k : cont) : bool :=
  match s with
  | EmptyString => false
  | String c s' =>
      is_space c && (k (Some c) s' || spaces1 (Some c) s' k)
  end.

Definition accept : cont := fun _ _ => true.

Fixpoint search_from (p : pat) (prev : option ascii) (s : string) : bool :=
  p prev s accept ||
  match s with
  | EmptyString => false
  | String c s' => search_from p (Some c) s'
  end.

(** [re.search(p, s)] as a truth value *)
Definition search (p : pat) (s : string) : bool := search_from p None s.

Infix ">>" := conc (at level 40, left associativity).

End Re.

Local Open Scope string_scope.
Local Open Scope list_scope.

(** [k in s] on strings *)
Definition contains (s k : string) : bool := Re.search (Re.lit k) s.

(** [re.search(r'\b' + re.escape(k) + r'\b', s)] *)
Definition whole_word (s k : string) : bool :=
  Re.search (Re.conc Re.wb (Re.conc (Re.lit k) Re.wb)) s.

(** ** The catalogue ([config.py]) *)

(** One entry of [agents.yaml], as it sits under its category key. *)
Record agent_entry := {
  e_name : string;
  e_description : string;
  e_keywords : list string;
  e_file_path : string;
  e_is_default : bool
}.

(** The entry with its category merged in: [{**agent, 'category': category}]. *)
Record agent := {
  name : string;
  description : string;
  keywords : list string;
  file_path : string;
  is_default : bool;
  category : string
}.

#[global] Instance agent_eq_dec : EqDecision agent.
Proof. solve_decision. Defined.

(** [AgentConfig.agents]: the categories in file order, each with its
    entries. *)
Definition config := list (string * list agent_entry).

Definition with_category (cat : string) (e : agent_entry) : agent :=
  {| name := e_name e; description := e_description e;
     keywords := e_keywords e; file_path := e_file_path e;
     is_default := e_is_default e; category := cat |}.

Fixpoint get_agents_by_category (cfg : config) (cat : string) : list agent :=
  match cfg with
  | [] => []
  | (c, entries) :: cfg' =>
      if String.eqb c cat then with_category c <$> entries
      else get_agents_by_category cfg' cat
  end.

Definition get_all_agents (cfg : config) : list agent :=
  flat_map (fun '(c, entries) => with_category c <$> entries) cfg.

(** The first entry flagged [is_default]; failing that the first engineering
    entry, and [IndexError] when there is none. *)
Definition get_default_agent (cfg : config) : res agent :=
  match find is_default (get_all_agents cfg) with
  | Some a => Ok a
  | None =>
      match get_agents_by_category cfg "engineering" with
      | a :: _ => Ok a
      | [] => Raise IndexError
      end
  end.

(** ** The matcher ([router.py]) *)

Definition Qltb (x y : Q) : bool := negb (Qle_bool y x).

Record scored := { sc_agent : agent; sc_score : Q }.

Record analysis := {
  is_multi_agent : bool;
  required_agents : list agent;
  confidence_score : Q
}.

(** What a caller may pass as the task: a string or anything else. *)
Inductive task_arg :=
| TaskStr (s : string)
| NotStr.

(** [if not task or not isinstance(task, str): task = ""] *)
Definition as_text (task : task_arg) : string :=
  match task with
  | TaskStr s => s
  | NotStr => ""
  end.

Section Patterns.
Import Re.

Definition build_words := ["build"; "implement"; "create"; "develop"].

Definition design_then_build : pat :=
  wb >> lit "design" >> wb >> dotstar >> wb >> alt build_words >> wb.

Definition build_then_design : pat :=
  wb >> alt build_words >> wb >> dotstar >> wb >> lit "design" >> wb.

Definition build_word : pat := wb >> alt ["build"; "implement"; "create"] >> wb.

Definition test_word : pat := wb >> alt ["test"; "qa"; "quality"] >> wb.

Definition test_artifact : pat :=
  lit "test" >> spaces1 >> alt ["report"; "documentation"; "evidence"].

Definition design_word : pat := wb >> lit "design" >> wb.

Definition design_of_system : pat :=
  lit "design" >> spaces1
  >> alt ["architecture"; "database"; "api"; "event-driven"; "microservices"].

Definition has (x : string) (l : list string) : bool := bool_decide (x ∈ l).

(** The rules of [_detect_multi_agent_patterns] in source order; each
    takes the list [required_agents] built so far and returns it, extended
    or not. *)
Definition full_stack_rule (task_lower : string) (ra : list string) : list string :=
  if contains task_lower "full-stack" || contains task_lower "fullstack"
  then ra ++ ["Frontend Developer"; "Backend Architect"] else ra.

Definition design_build_rule (task_lower : string) (ra : list string) : list string :=
  if search design_then_build task_lower || search build_then_design task_lower
  then ra ++ ["UI Designer"; "Frontend Developer"] else ra.

Definition frontend_backend_rule (task_lower : string) (ra : list string) : list string :=
  if contains task_lower "frontend"
     && (contains task_lower "backend" || contains task_lower "api")
  then ra ++ ["Frontend Developer"; "Backend Architect"]
  else if contains task_lower "backend" && contains task_lower "frontend"
  then ra ++ ["Frontend Developer"; "Backend Architect"] else ra.

Definition build_test_rule (task_lower : string) (ra : list string) : list string :=
  if search build_word task_lower && search test_word task_lower
     && negb (search test_artifact task_lower)
  then
    let ra := ra ++ ["Reality Checker"] in
    if contains task_lower "api" || contains task_lower "backend"
       || contains task_lower "endpoint"
    then if negb (has "Backend Architect" ra)
         then ra ++ ["Backend Architect"] else ra
    else if contains task_lower "frontend" || contains task_lower "ui"
            || contains task_lower "component"
    then if negb (has "Frontend Developer" ra)
         then ra ++ ["Frontend Developer"] else ra
    else ra
  else ra.

Definition deploy_rule (task_lower : string) (ra : list string) : list string :=
  if contains task_lower "deploy" || contains task_lower "deployment"
     || contains task_lower "devops"
  then ra ++ ["DevOps Engineer"] else ra.

Definition design_rule (task_lower : string) (ra : list string) : list string :=
  if search design_word task_lower
  then if negb (search design_of_system task_lower)
       then if negb (has "UI Designer" ra) then ra ++ ["UI Designer"] else ra
       else ra
  else ra.

Definition dashboard_rule (task_lower : string) (ra : list string) : list string :=
  if contains task_lower "dashboard"
  then
    let ra := if negb (has "UI Designer" ra) then ra ++ ["UI Designer"] else ra in
    if negb (has "Frontend Developer" ra)
    then ra ++ ["Frontend Developer"] else ra
  else ra.

(** The list [required_agents] of [_detect_multi_agent_patterns], before it
    is turned into a set. *)
Definition pattern_hits (task_lower : string) : list string :=
  let ra := [] in
  let ra := full_stack_rule task_lower ra in
  let ra := design_build_rule task_lower ra in
  let ra := frontend_backend_rule task_lower ra in
  let ra := build_test_rule task_lower ra in
  let ra := deploy_rule task_lower ra in
  let ra := design_rule task_lower ra in
  let ra := dashboard_rule task_lower ra in
  ra.

(** [_detect_multi_agent_patterns(task_lower)['required_agents']]; the
    callers only test membership and take the size of the set. *)
Definition detect_multi_agent_patterns (task_lower : string) : gset string :=
  list_to_set (pattern_hits task_lower).

End Patterns.

(** One turn of the keyword loop of [_calculate_agent_score]. *)
Definition keyword_step (task_lower : string) (score : Q) (keyword : string) : Q :=
  let keyword_lower := Text.lower keyword in
  if whole_word task_lower keyword_lower then
    let word_count := Text.word_count keyword_lower in
    let base_score := 2.0%Q in
    let specificity_bonus := (inject_Z (word_count - 1)%Z * 0.5)%Q in
    (score + (base_score + specificity_bonus))%Q
  else if contains task_lower keyword_lower then (score + 1.0)%Q
  else score.

Definition calculate_agent_score (task_lower : string) (a : agent) : Q :=
  let score := fold_left (keyword_step task_lower) (keywords a) 0.0%Q in
  if contains task_lower (Text.lower (name a)) then (score + 5.0)%Q else score.

(** The score of one catalogue entry inside the loop of [analyze_task]: the
    keyword score and the boost for pattern-detected agents. *)
Definition agent_score (task_lower : string) (patterns : gset string) (a : agent) : Q :=
  let score := calculate_agent_score task_lower a in
  if bool_decide (name a ∈ patterns) then (score + 3.0)%Q else score.

(** The loop that fills [agent_scores]: entries with a positive score, in
    catalogue order. *)
Fixpoint score_agents (task_lower : string) (patterns : gset string)
    (all_agents : list agent) : list scored :=
  match all_agents with
  | [] => []
  | a :: rest =>
      let score := agent_score task_lower patterns a in
      if Qltb 0.0 score
      then {| sc_agent := a; sc_score := score |} :: score_agents task_lower patterns rest
      else score_agents task_lower patterns rest
  end.

(** [list.sort(key=score, reverse=True)]: descending and stable. *)
Fixpoint insert_desc (x : scored) (l : list scored) : list scored :=
  match l with
  | [] => [x]
  | y :: l' =>
      if Qltb (sc_score x) (sc_score y) then y :: insert_desc x l'
      else x :: l
  end.

Fixpoint sort_desc (l : list scored) : list scored :=
  match l with
  | [] => []
  | x :: l' => insert_desc x (sort_desc l')
  end.

(** [agent_scores] of [analyze_task] after the sort. *)
Definition scored_candidates (cfg : config) (task_lower : string) : list scored :=
  sort_desc (score_agents task_lower (detect_multi_agent_patterns task_lower)
               (get_all_agents cfg)).

(** [similar_agents]: the candidates within 60% of the top score, then the
    pattern-detected ones scoring at least 2.0 that are not in it yet. *)
Definition add_pattern_agent (patterns : gset string)
    (similar : list agent) (sa : scored) : list agent :=
  let a := sc_agent sa in
  if bool_decide (name a ∈ patterns) && Qle_bool 2.0%Q (sc_score sa) then
    if negb (bool_decide (a ∈ similar)) then similar ++ [a] else similar
  else similar.

Definition similar_agents (patterns : gset string) (agent_scores : list scored)
    (top_score : Q) : list agent :=
  let similar :=
    sc_agent <$> filter (fun a => Qle_bool (top_score * 0.6)%Q (sc_score a)) agent_scores in
  fold_left (add_pattern_agent patterns) agent_scores similar.

(** The decision of the multi-candidate branch: the flag [is_multi_agent]
    and the list [required_agents]. *)
Definition multi_decision (patterns : gset string) (top : scored)
    (similar : list agent) : bool * list agent :=
  let top_score := sc_score top in
  if (1 <? length similar)%nat then
    let categories : gset string := list_to_set (category <$> similar) in
    let agent_names : gset string := list_to_set (name <$> similar) in
    if (1 <? size categories)%nat
       || ((1 <? size agent_names)%nat && Qle_bool 2.5%Q top_score)
       || (1 <? size patterns)%nat
    then (true, firstn 5 similar)
    else (false, [sc_agent top])
  else (false, [sc_agent top]).

Definition analyze_task (cfg : config) (task : task_arg) : res analysis :=
  let task := as_text task in
  let task_lower := Text.lower task in
  let patterns := detect_multi_agent_patterns task_lower in
  let agent_scores := scored_candidates cfg task_lower in
  match agent_scores with
  | [] =>
      d ← get_default_agent cfg;
      mret {| is_multi_agent := false; required_agents := [d];
              confidence_score := 0.0%Q |}
  | top :: others =>
      if Qltb (sc_score top) 2.0%Q then
        d ← get_default_agent cfg;
        mret {| is_multi_agent := false; required_agents := [d];
                confidence_score := Qmin (0.1 + sc_score top * 0.05)%Q 0.3%Q |}
      else
        match others with
        | [] =>
            let raw_score := sc_score top in
            mret {| is_multi_agent := false; required_agents := [sc_agent top];
                    confidence_score := Qmin (0.3 + raw_score * 0.1)%Q 1.0%Q |}
        | _ :: _ =>
            let top_score := sc_score top in
            let similar := similar_agents patterns agent_scores top_score in
            let '(multi, required) := multi_decision patterns top similar in
            mret {| is_multi_agent := multi; required_agents := required;
                    confidence_score := Qmin (0.3 + top_score * 0.1)%Q 1.0%Q |}
        end
  end.

(** The tail of [select_agent]: the primary agent of an analysis, or the
    default when the analysis names nobody. *)
Definition primary_agent (cfg : config) (a : analysis) : res agent :=
  if is_multi_agent a && (0 <? length (required_agents a))%nat then
    match required_agents a with x :: _ => Ok x | [] => Raise IndexError end
  else if (0 <? length (required_agents a))%nat then
    match required_agents a with x :: _ => Ok x | [] => Raise IndexError end
  else get_default_agent cfg.

Definition select_agent (cfg : config) (task : task_arg) : res agent :=
  let task := as_text task in
  let task := Text.strip task in
  if String.eqb task "" || Text.isspace task then get_default_agent cfg
  else
    a ← analyze_task cfg (TaskStr task);
    primary_agent cfg a.

(** ** The planner ([coordination.py]) *)

Record agent_detail := {
  ad_name : string;
  ad_category : string;
  ad_role : string;
  ad_responsibilities : list string
}.

Record step := {
  step_number : Z;
  step_agent : string;
  action : string;
  deliverable : string;
  duration : string;
  protocols : list string
}.

Record handoff := {
  from_agent : string;
  to_agent : string;
  h_deliverable : string;
  success_criteria : list string
}.

(** The plan without its [estimated_time] entry, which no property below
    reads. *)
Record plan := {
  task : task_arg;
  agents : list agent_detail;
  sequence : list step;
  handoff_points : list handoff;
  dependencies : gmap Z (list Z);
  parallel_groups : list (list string)
}.

Definition get_agent_responsibilities (a : agent) : list string :=
  let category := category a in
  if String.eqb category "design" then
    ["Create design mockups and wireframes"; "Define user experience flows";
     "Establish design system and components"]
  else if String.eqb category "engineering" then
    if contains (name a) "Frontend" then
      ["Implement UI components"; "Integrate with backend APIs";
       "Ensure responsive design"]
    else if contains (name a) "Backend" then
      ["Design and implement API endpoints"; "Setup database schema";
       "Handle business logic"]
    else
      ["Gather and document requirements"; "Design technical architecture";
       "Implement core functionality"]
  else if String.eqb category "testing" then
    ["Write comprehensive test cases"; "Perform integration testing";
     "Validate against requirements"]
  else if String.eqb category "product" then
    ["Define product requirements"; "Prioritize features";
     "Coordinate between teams"]
  else
    ["Complete assigned tasks"; "Follow development protocols";
     "Deliver quality work"].

Definition agent_details_of (a : agent) : agent_detail :=
  {| ad_name := name a; ad_category := category a; ad_role := category a;
     ad_responsibilities := get_agent_responsibilities a |}.

Definition get_implementation_action (a : agent) : string :=
  if contains (name a) "Frontend" then "Implement frontend components and user interface"
  else if contains (name a) "Backend" then "Implement backend APIs and business logic"
  else if contains (name a) "Mobile" then "Implement mobile application features"
  else if contains (name a) "AI" then "Implement AI models and integration"
  else if contains (name a) "DevOps" then "Setup deployment pipeline and infrastructure"
  else "Implement core functionality and features".

Definition get_implementation_deliverable (a : agent) : string :=
  if contains (name a) "Frontend" then "Working frontend with all UI components"
  else if contains (name a) "Backend" then "Functional backend with tested API endpoints"
  else if contains (name a) "Mobile" then "Tested mobile application build"
  else if contains (name a) "AI" then "Trained models and integration code"
  else if contains (name a) "DevOps" then "Deployment pipeline and infrastructure code"
  else "Implemented functionality with tests".

(** The two locals [_generate_sequence] updates: the list built so far and
    the next step number. *)
Definition seq_state := (list step * Z)%type.

(** [sequence.append({...}); step_number += 1] *)
Definition add_step (st : seq_state) (who act deliv dur : string)
    (protos : list string) : seq_state :=
  let '(sequence, step_number) := st in
  (sequence ++ [{| step_number := step_number; step_agent := who; action := act;
                   deliverable := deliv; duration := dur; protocols := protos |}],
   (step_number + 1)%Z).

Definition is_designer (a : agent) : bool :=
  contains (name a) "Designer" || contains (name a) "UX".

Definition is_tester (a : agent) : bool :=
  contains (name a) "Tester" || contains (name a) "Checker".

Definition is_devops (a : agent) : bool := contains (name a) "DevOps".

(** One turn of the implementation loop. *)
Definition implementation_step (st : seq_state) (a : agent) : seq_state :=
  if negb (contains (name a) "Designer") && negb (contains (name a) "UX")
     && negb (contains (name a) "Tester") && negb (contains (name a) "Checker")
  then
    add_step st (name a) (get_implementation_action a)
      (get_implementation_deliverable a) "6 hours"
      ["Test-first development"; "Git commits"; "Virtual environment";
       "Follow TODO list"]
  else st.

Definition mentions_any (task_lower : string) (words : list string) : bool :=
  existsb (fun word => contains task_lower word) words.

(** The phases of [_generate_sequence], each a state transformer. *)
Definition requirements_phase (primary : agent) (st : seq_state) : seq_state :=
  add_step st (name primary) "Gather and document requirements"
    "Requirements document with clear specifications" "2 hours"
    ["Requirements gathering first"; "Create TODO list"; "Git branch setup"].

Definition design_phase (agents : list agent) (st : seq_state) : seq_state :=
  let has_designer := existsb is_designer agents in
  if has_designer then
    match find is_designer agents with
    | Some designer =>
        add_step st (name designer)
          "Design system architecture and user interface"
          "Design mockups, wireframes, and component library" "4 hours"
          ["Follow design system"; "Create reusable components";
           "Document decisions"]
    | None => st
    end
  else st.

Definition testing_phase (agents : list agent) (primary : agent)
    (task_lower : string) (st : seq_state) : seq_state :=
  if mentions_any task_lower ["build"; "implement"; "create"; "develop"] then
    let tester := default primary (find is_tester agents) in
    add_step st (name tester)
      "Test implementation and validate requirements"
      "Test results, bug reports, and validation report" "3 hours"
      ["Comprehensive testing"; "Test coverage"; "QA checklist"]
  else st.

Definition deployment_phase (agents : list agent) (primary : agent)
    (task_lower : string) (st : seq_state) : seq_state :=
  if mentions_any task_lower ["deploy"; "deployment"; "production"; "release"] then
    let devops := default primary (find is_devops agents) in
    add_step st (name devops)
      "Deploy to production and setup monitoring"
      "Deployed application with monitoring and CI/CD pipeline" "4 hours"
      ["Infrastructure as code"; "Automated deployment"; "Monitoring setup"]
  else st.

Definition generate_sequence (agents : list agent) (task : task_arg)
    : res (list step) :=
  match agents with
  | [] => Raise IndexError                      (* agents[0] *)
  | primary :: _ =>
      let st : seq_state := ([], 1%Z) in
      let st := requirements_phase primary st in
      let st := design_phase agents st in
      let st := fold_left implementation_step agents st in
      match task with
      | NotStr => Raise AttributeError           (* task.lower() *)
      | TaskStr text =>
          let st := testing_phase agents primary (Text.lower text) st in
          let st := deployment_phase agents primary (Text.lower text) st in
          Ok (fst st)
      end
  end.

Definition get_success_criteria (from_step to_step : step) : list string :=
  let criteria := ["All deliverables completed and documented";
                   "Code committed to git repository"] in
  let criteria :=
    if contains (Text.lower (action from_step)) "requirements"
    then criteria ++ ["Requirements clearly defined and validated";
                      "Acceptance criteria documented"] else criteria in
  let criteria :=
    if contains (Text.lower (action from_step)) "design"
    then criteria ++ ["Design approved by stakeholders";
                      "All components documented"] else criteria in
  let criteria :=
    if contains (Text.lower (action from_step)) "implement"
    then criteria ++ ["All tests passing"; "Code review completed"] else criteria in
  criteria.

Definition make_handoff (current_step next_step : step) : handoff :=
  {| from_agent := step_agent current_step; to_agent := step_agent next_step;
     h_deliverable := deliverable current_step;
     success_criteria := get_success_criteria current_step next_step |}.

(** One turn of the loop [for i in range(len(sequence) - 1)].  Both indices
    are inside the list for every [i] of that range. *)
Definition handoff_at (sequence : list step) (i : nat) : list handoff :=
  match sequence !! i, sequence !! S i with
  | Some current_step, Some next_step =>
      if bool_decide (step_agent current_step ≠ step_agent next_step)
      then [make_handoff current_step next_step] else []
  | _, _ => []
  end.

Definition generate_handoffs (sequence : list step) : list handoff :=
  flat_map (handoff_at sequence) (seq 0 (length sequence - 1)).

Definition dependency_step (deps : gmap Z (list Z)) (s : step) : gmap Z (list Z) :=
  let step_num := step_number s in
  if (1 <? step_num)%Z then <[step_num := [(step_num - 1)%Z]]> deps else deps.

Definition map_dependencies (sequence : list step) : gmap Z (list Z) :=
  fold_left dependency_step sequence ∅.

Definition identify_parallel_work (agents : list agent) : list (list string) :=
  let parallel_groups := [] in
  let has_frontend := existsb (fun a => contains (name a) "Frontend") agents in
  let has_backend := existsb (fun a => contains (name a) "Backend") agents in
  let parallel_groups :=
    if has_frontend && has_backend
    then parallel_groups ++ [["Frontend Developer"; "Backend Architect"]]
    else parallel_groups in
  if (3 <=? length agents)%nat then
    let impl_agents :=
      name <$>
        filter (fun a => negb (contains (name a) "Designer")
                         && negb (contains (name a) "Tester")
                         && negb (contains (name a) "Product")) agents in
    if (2 <=? length impl_agents)%nat
    then parallel_groups ++ [impl_agents] else parallel_groups
  else parallel_groups.

(** The agents [generate_plan] works with: the required agents of a
    multi-agent analysis, otherwise the one agent [select_agent] returns. *)
Definition planner_agents (cfg : config) (task : task_arg) : res (list agent) :=
  analysis ← analyze_task cfg task;
  if is_multi_agent analysis then mret (required_agents analysis)
  else a ← select_agent cfg task; mret [a].

(** The rest of [generate_plan], once the agents are known. *)
Definition build_plan (agents : list agent) (task : task_arg) : res plan :=
  let agent_details := agent_details_of <$> agents in
  sequence ← generate_sequence agents task;
  let handoff_points := generate_handoffs sequence in
  let dependencies := map_dependencies sequence in
  let parallel_groups := identify_parallel_work agents in
  mret {| task := task; agents := agent_details; sequence := sequence;
          handoff_points := handoff_points; dependencies := dependencies;
          parallel_groups := parallel_groups |}.

Definition generate_plan (cfg : config) (task : task_arg) : res plan :=
  agents ← planner_agents cfg task;
  build_plan agents task.

(** ** Specification-side definitions *)

(** The keyword score as the specification words it: what one keyword
    contributes, summed over the keywords, plus the two flat bonuses. *)
Definition keyword_contribution (task_lower keyword : string) : Q :=
  let k := Text.lower keyword in
  if whole_word task_lower k then (2.0 + 0.5 * inject_Z (Text.word_count k - 1))%Q
  else if contains task_lower k then 1.0%Q
  else 0.0%Q.

Definition Qsum (l : list Q) : Q := foldr Qplus 0%Q l.

Definition spec_score (task_lower : string) (patterns : gset string) (a : agent) : Q :=
  (Qsum (keyword_contribution task_lower <$> keywords a)
   + (if contains task_lower (Text.lower (name a)) then 5.0 else 0.0)
   + (if bool_decide (name a ∈ patterns) then 3.0 else 0.0))%Q.

(** The adjacent pairs of steps, and the handoffs as the specification words
    them: one for each pair whose agents differ. *)
Fixpoint adjacent_pairs (l : list step) : list (step * step) :=
  match l with
  | a :: (b :: _) as tl => (a, b) :: adjacent_pairs tl
  | _ => []
  end.

Definition differing_pairs (sequence : list step) : list (step * step) :=
  filter (fun '(a, b) => step_agent a ≠ step_agent b) (adjacent_pairs sequence).

Definition handoffs_spec (sequence : list step) : list handoff :=
  (fun '(a, b) => make_handoff a b) <$> differing_pairs sequence.

(** What the specification asks of the handoff made for a pair of steps. *)
Definition hands_over (h : handoff) (pair : step * step) : Prop :=
  from_agent h = step_agent pair.1 ∧ to_agent h = step_agent pair.2
  ∧ h_deliverable h = deliverable pair.1.

(** The invariant of the loop state of [_generate_sequence]: the steps are
    numbered 1, 2, ... in order, the counter is one past the last number,
    and every step belongs to one of [names]. *)
Definition seq_inv (names : list string) (st : seq_state) : Prop :=
  step_number <$> st.1 = seqZ 1 (Z.of_nat (length st.1))
  ∧ st.2 = (1 + Z.of_nat (length st.1))%Z
  ∧ Forall (λ s, step_agent s ∈ names) st.1.

(** A task is blank when it is not a string or is made of white space. *)
Definition blank (task : task_arg) : Prop :=
  match task with
  | TaskStr s => Text.all_space s = true
  | NotStr => True
  end.

(** ** Sample catalogues *)

Module Sample.

Definition entry (n : string) (kws : list string) (dflt : bool) : agent_entry :=
  {| e_name := n; e_description := ""; e_keywords := kws;
     e_file_path := ""; e_is_default := dflt |}.

Definition frontend := entry "Frontend Developer" ["frontend"; "react"; "ui"] false.
Definition backend := entry "Backend Architect" ["backend"; "api"; "rest api"] false.
Definition senior := entry "Senior Developer" ["code"] true.
Definition designer := entry "UI Designer" ["design"; "ui design"] false.

Definition catalogue : config :=
  [("engineering", [frontend; backend; senior]); ("design", [designer])].

(** A catalogue in which five marketing specialists share three keywords. *)
Definition growth (n : string) : agent_entry :=
  entry n ["seo"; "campaign"; "newsletter"] false.

Definition crowded : config :=
  [("engineering", [frontend; backend; senior]);
   ("marketing", [growth "Growth Hacker"; growth "Content Creator";
                  growth "Social Media Strategist"; growth "Email Marketer";
                  growth "Brand Manager"])].

Definition crowded_task : string :=
  "SEO campaign and newsletter for the frontend and backend teams".

Definition agent_named (n : string) : agent :=
  with_category "engineering" (entry n ["code"] false).

End Sample.

(** ** Further operations of the catalogue ([config.py]) *)

(** [get_agent_by_name]: the first entry with that name, category by
    category, or [None]. *)
Fixpoint get_agent_by_name (cfg : config) (n : string) : option agent :=
  match cfg with
  | [] => None
  | (c, entries) :: cfg' =>
      match find (fun e => String.eqb (e_name e) n) entries with
      | Some e => Some (with_category c e)
      | None => get_agent_by_name cfg' n
      end
  end.

(** The inner loop of [search_agents], which stops at the first keyword
    that contains the needle. *)
Fixpoint keyword_hit (keyword_lower : string) (kws : list string) : bool :=
  match kws with
  | [] => false
  | kw :: rest =>
      if contains (Text.lower kw) keyword_lower then true
      else keyword_hit keyword_lower rest
  end.

Fixpoint search_loop (keyword_lower : string) (all_agents : list agent) : list agent :=
  match all_agents with
  | [] => []
  | a :: rest =>
      if keyword_hit keyword_lower (keywords a)
      then a :: search_loop keyword_lower rest
      else search_loop keyword_lower rest
  end.

Definition search_agents (cfg : config) (keyword : string) : list agent :=
  let keyword_lower := Text.lower keyword in
  search_loop keyword_lower (get_all_agents cfg).

(** The reasons for which [_validate_config] raises [AgentConfigError] on a
    catalogue whose entries carry all their fields. *)
Inductive config_error :=
| NoCategories                      (* Config has no agent categories *)
| NoKeywords (agent_name : string)  (* Agent ... must have keywords list *)
| FileNotFound (path : string)      (* Agent file not found: ... *)
| DuplicateName (agent_name : string).

Section Validation.
(** [os.path.exists] *)
Variable path_exists : string -> bool.

Definition validate_agent (e : agent_entry) : option config_error :=
  if (length (e_keywords e) =? 0)%nat then Some (NoKeywords (e_name e))
  else if negb (path_exists (e_file_path e)) then Some (FileNotFound (e_file_path e))
  else None.

(** The loop over the entries of one category; [all_names] is the set of
    names seen so far. *)
Fixpoint validate_entries (entries : list agent_entry) (all_names : gset string)
    : config_error + gset string :=
  match entries with
  | [] => inr all_names
  | e :: rest =>
      match validate_agent e with
      | Some err => inl err
      | None =>
          if bool_decide (e_name e ∈ all_names) then inl (DuplicateName (e_name e))
          else validate_entries rest ({[e_name e]} ∪ all_names)
      end
  end.

Fixpoint validate_categories (cfg : config) (all_names : gset string)
    : config_error + gset string :=
  match cfg with
  | [] => inr all_names
  | (_, entries) :: cfg' =>
      match validate_entries entries all_names with
      | inl err => inl err
      | inr all_names => validate_categories cfg' all_names
      end
  end.

(** [_validate_config]: [None] when the catalogue is accepted. *)
Definition validate_config (cfg : config) : option config_error :=
  if (length cfg =? 0)%nat then Some NoCategories
  else
    match validate_categories cfg ∅ with
    | inl err => Some err
    | inr _ => None
    end.

End Validation.

(** [_check_duplicates]: [true] when it raises. *)
Definition check_duplicates (cfg : config) : bool :=
  let all_names := name <$> get_all_agents cfg in
  negb (length all_names =? size (list_to_set all_names : gset string))%nat.

(** ** Further operations of the router ([router.py]) *)

Inductive validation_error := ValidationError (message : string).

Module Router.

(** [AgentRouter.get_agent_by_name] *)
Definition get_agent_by_name (cfg : config) (n : string)
    : validation_error + option agent :=
  if String.eqb n "" || String.eqb (Text.strip n) ""
  then inl (ValidationError "Agent name cannot be empty")
  else inr (get_agent_by_name cfg n).

Definition categories : list string :=
  ["engineering"; "design"; "testing"; "marketing"; "product"; "support"].

(** [AgentRouter.get_available_agents]: the non-empty categories among the
    six known ones. *)
Definition get_available_agents (cfg : config) : gmap string (list agent) :=
  fold_left
    (fun result category =>
       let agents := get_agents_by_category cfg category in
       match agents with
       | [] => result
       | _ => <[category := agents]> result
       end)
    categories ∅.

Record basic_handoff := {
  bh_from : string;
  bh_to : string;
  bh_deliverables : list string
}.

Record basic_plan := {
  bp_agents : list agent;
  bp_sequence : list string;
  bp_handoff_points : list basic_handoff
}.

(** The body of the loop [for i, agent in enumerate(agents)]. *)
Definition basic_steps (agents : list agent) (i : nat) (a : agent) : list string :=
  (if (i =? 0)%nat then ["Gather requirements and plan approach"] else [])
  ++ [name a +:+ ": Design " +:+ category a +:+ " architecture"]
  ++ [name a +:+ ": Build and implement solution"]
  ++ (if (i <? length agents - 1)%nat then
        match agents !! S i with
        | Some next => ["Handoff to " +:+ name next]
        | None => []
        end
      else []).

(** The body of the loop [for i in range(len(agents) - 1)]. *)
Definition basic_handoff_at (agents : list agent) (i : nat) : list basic_handoff :=
  match agents !! i, agents !! S i with
  | Some a, Some b =>
      [{| bh_from := name a; bh_to := name b;
          bh_deliverables := ["Requirements document"; "Implementation"] |}]
  | _, _ => []
  end.

(** The plan [generate_coordination_plan] builds from its agents. *)
Definition basic_plan_of (agents : list agent) : basic_plan :=
  {| bp_agents := agents;
     bp_sequence := concat (imap (basic_steps agents) agents);
     bp_handoff_points :=
       flat_map (basic_handoff_at agents) (seq 0 (length agents - 1)) |}.

(** [AgentRouter.generate_coordination_plan] *)
Definition generate_coordination_plan (cfg : config) (task : task_arg)
    : res basic_plan :=
  analysis ← analyze_task cfg task;
  agents ← (if is_multi_agent analysis then mret (required_agents analysis)
            else a ← select_agent cfg task; mret [a]);
  mret (basic_plan_of agents).

End Router.

(** ** The time estimate ([coordination.py]) *)

(** [s.split()[0]]: the first run of non-space characters, if any. *)
Fixpoint take_token (s : string) : string :=
  match s with
  | EmptyString => EmptyString
  | String c s' => if Text.is_space c then EmptyString else String c (take_token s')
  end.

Definition first_token (s : string) : option string :=
  match Text.lstrip s with
  | EmptyString => None
  | t => Some (take_token t)
  end.

Record time_estimate := {
  te_total : Q;
  te_unit : string;
  te_breakdown : gmap Z string
}.

Section EstimateTime.
(** The builtin [float] on strings; [None] stands for its [ValueError]. *)
Variable float : string -> option Q.

(** One turn of the loop of [_estimate_time]; [None] when [float] or the
    indexing of the split raises. *)
Definition add_hours (total_hours : option Q) (s : step) : option Q :=
  total_hours ← total_hours;
  let duration := duration s in
  if contains duration "hour" then
    token ← first_token duration;
    hours ← float token;
    Some (total_hours + hours)%Q
  else Some total_hours.

Definition estimate_time (sequence : list step) : option time_estimate :=
  total_hours ← fold_left add_hours sequence (Some 0%Q);
  Some {| te_total := total_hours; te_unit := "hours";
          te_breakdown :=
            fold_left (fun m s => <[step_number s := duration s]> m) sequence ∅ |}.

End EstimateTime.

(** ** Specification-side definitions for the planner *)

(** The steps of a plan by phase, each awaiting its number. *)
Definition requirements_step (primary : agent) (n : Z) : step :=
  {| step_number := n; step_agent := name primary;
     action := "Gather and document requirements";
     deliverable := "Requirements document with clear specifications";
     duration := "2 hours";
     protocols := ["Requirements gathering first"; "Create TODO list";
                   "Git branch setup"] |}.

Definition design_step (designer : agent) (n : Z) : step :=
  {| step_number := n; step_agent := name designer;
     action := "Design system architecture and user interface";
     deliverable := "Design mockups, wireframes, and component library";
     duration := "4 hours";
     protocols := ["Follow design system"; "Create reusable components";
                   "Document decisions"] |}.

Definition build_step (a : agent) (n : Z) : step :=
  {| step_number := n; step_agent := name a;
     action := get_implementation_action a;
     deliverable := get_implementation_deliverable a;
     duration := "6 hours";
     protocols := ["Test-first development"; "Git commits";
                   "Virtual environment"; "Follow TODO list"] |}.

Definition testing_step (tester : agent) (n : Z) : step :=
  {| step_number := n; step_agent := name tester;
     action := "Test implementation and validate requirements";
     deliverable := "Test results, bug reports, and validation report";
     duration := "3 hours";
     protocols := ["Comprehensive testing"; "Test coverage"; "QA checklist"] |}.

Definition deployment_step (devops : agent) (n : Z) : step :=
  {| step_number := n; step_agent := name devops;
     action := "Deploy to production and setup monitoring";
     deliverable := "Deployed application with monitoring and CI/CD pipeline";
     duration := "4 hours";
     protocols := ["Infrastructure as code"; "Automated deployment";
                   "Monitoring setup"] |}.

(** Who gets an implementation step: neither designer nor tester. *)
Definition is_builder (a : agent) : bool :=
  negb (is_designer a) && negb (is_tester a).

Definition wants_testing (text : string) : bool :=
  mentions_any (Text.lower text) ["build"; "implement"; "create"; "develop"].

Definition wants_deployment (text : string) : bool :=
  mentions_any (Text.lower text) ["deploy"; "deployment"; "production"; "release"].

(** The five phases in order: requirements, design when a designer is
    involved, one implementation step for each builder, testing and
    deployment when the task asks for them. *)
Definition phases (agents : list agent) (primary : agent) (text : string)
    : list (Z -> step) :=
  [requirements_step primary]
  ++ match find is_designer agents with
     | Some designer => [design_step designer]
     | None => []
     end
  ++ (build_step <$> filter (fun a => is_builder a) agents)
  ++ (if wants_testing text
      then [testing_step (default primary (find is_tester agents))] else [])
  ++ (if wants_deployment text
      then [deployment_step (default primary (find is_devops agents))] else []).

(** Numbering from [first] on. *)
Fixpoint number_from (first : Z) (l : list (Z -> step)) : list step :=
  match l with
  | [] => []
  | f :: l' => f first :: number_from (first + 1)%Z l'
  end.

(** A list of handoffs is a chain from [start] when each handoff leaves
    where the one before arrived. *)
Fixpoint chained (start : string) (hs : list handoff) : Prop :=
  match hs with
  | [] => True
  | h :: hs' => from_agent h = start ∧ chained (to_agent h) hs'
  end.

Fixpoint chain_end (start : string) (hs : list handoff) : string :=
  match hs with
  | [] => start
  | h :: hs' => chain_end (to_agent h) hs'
  end.

(** A stand-in for [float] on the spellings the planner produces. *)
Definition sample_float (s : string) : option Q :=
  if String.eqb s "2" then Some 2%Q
  else if String.eqb s "3" then Some 3%Q
  else if String.eqb s "4" then Some 4%Q
  else if String.eqb s "6" then Some 6%Q
  else None.

(** The names the pattern detectors can produce. *)
Definition pattern_names : list string :=
  ["Frontend Developer"; "Backend Architect"; "UI Designer"; "Reality Checker";
   "DevOps Engineer"].

(** The tests of the deploy rule and of the build-and-test rule. *)
Definition mentions_deploy (task_lower : string) : bool :=
  contains task_lower "deploy" || contains task_lower "deployment"
  || contains task_lower "devops".

Definition mentions_build_and_test (task_lower : string) : bool :=
  Re.search build_word task_lower && Re.search test_word task_lower
  && negb (Re.search test_artifact task_lower).

(** The loop state of [_generate_sequence] after the steps [l]. *)
Definition numbered_state (l : list (Z -> step)) : seq_state :=
  (number_from 1 l, (1 + Z.of_nat (length l))%Z).

(** The hours a plan adds up to, phase by phase. *)
Definition planned_hours (agents : list agent) (text : string) : Q :=
  (2
   + (if existsb is_designer agents then 4 else 0)
   + 6 * inject_Z (Z.of_nat (length (filter (fun a => is_builder a) agents)))
   + (if wants_testing text then 3 else 0)
   + (if wants_deployment text then 4 else 0))%Q.

(** ** The protocol bookkeeping ([protocols.py]) *)

Module Protocols.

(** [self._task_states]: for each task the flags set so far. *)
Abbreviation task_states := (gmap string (gmap string bool)).

(** [self._task_states.get(task_id, {}).get(key, False)] *)
Definition flag (states : task_states) (task_id key : string) : bool :=
  let state := default ∅ (states !! task_id) in
  default false (state !! key).

(** The body shared by the [mark_...] methods. *)
Definition mark (key : string) (states : task_states) (task_id : string)
    : task_states :=
  let states :=
    match states !! task_id with
    | None => <[task_id := ∅]> states
    | Some _ => states
    end in
  alter (fun state => <[key := true]> state) task_id states.

Definition mark_requirements_gathered := mark "requirements_gathered".
Definition mark_tests_written := mark "tests_written".
Definition mark_tests_approved := mark "tests_approved".
Definition mark_reflection_complete := mark "reflection_complete".
Definition mark_implementation_complete := mark "implementation_complete".
Definition mark_todo_updated := mark "todo_updated".
Definition mark_git_checks_complete := mark "git_checks_complete".

Record verdict := { allowed : bool; message : string }.

Definition check_requirements_gathered (states : task_states) (task_id : string)
    : verdict :=
  if flag states task_id "requirements_gathered"
  then {| allowed := true; message := "Requirements gathered" |}
  else {| allowed := false;
          message := "Requirements must be gathered before implementation" |}.

Definition check_can_implement (states : task_states) (task_id : string) : verdict :=
  let tests_ready :=
    flag states task_id "tests_written" && flag states task_id "tests_approved" in
  let requirements_ready := flag states task_id "requirements_gathered" in
  let tests_written := flag states task_id "tests_written" in
  let reflection_complete := flag states task_id "reflection_complete" in
  if tests_written && negb reflection_complete then
    {| allowed := false;
       message := "Self-reflection required after writing tests before implementation" |}
  else if tests_ready && (negb tests_written || reflection_complete) then
    {| allowed := true; message := "Can proceed with implementation" |}
  else if negb requirements_ready && negb tests_written then
    {| allowed := false;
       message := "Requirements must be gathered before implementation" |}
  else
    {| allowed := false;
       message := "Tests must be written and approved before implementation" |}.

Record rule := { rule_name : string; rule_description : string; mandatory : bool }.

Definition get_all_protocol_rules : list rule :=
  [ {| rule_name := "Requirements Gathering First";
       rule_description := "Gather and document requirements before implementation";
       mandatory := true |};
    {| rule_name := "Git Commit Checkpoint";
       rule_description := "Follow git workflow with 4 required checks";
       mandatory := true |};
    {| rule_name := "Logging Standards";
       rule_description := "No debug logs or print statements in production";
       mandatory := true |};
    {| rule_name := "Bash Validation";
       rule_description := "Validate math/logic with bash test scripts";
       mandatory := true |};
    {| rule_name := "Code Organization";
       rule_description := "No duplicate functions or poor organization";
       mandatory := true |};
    {| rule_name := "Local Testing";
       rule_description := "All tests must pass (100% pass rate)";
       mandatory := true |};
    {| rule_name := "Production-Ready Code";
       rule_description := "No commented code or TODO comments";
       mandatory := true |};
    {| rule_name := "User Decision Points";
       rule_description := "Present options for key decisions";
       mandatory := true |};
    {| rule_name := "Copy-Paste Ready Commands";
       rule_description := "Commands must have no placeholders";
       mandatory := true |};
    {| rule_name := "Virtual Environment";
       rule_description := "Use shared venv at /Users/gaganarora/Desktop/gagan_projects/venv";
       mandatory := true |};
    {| rule_name := "TODO Tracking";
       rule_description := "Maintain TODO.md with In Progress, Pending, Completed";
       mandatory := true |} ].

Record compliance := {
  rules_checked : Z;
  rules_passed : Z;
  rules_failed : Z;
  compliance_percentage : Q
}.

(** One of the tests of [check_compliance]: a pass or a failure more. *)
Definition tally (passed : bool) (counts : Z * Z) : Z * Z :=
  let '(rules_passed, rules_failed) := counts in
  if passed then ((rules_passed + 1)%Z, rules_failed)
  else (rules_passed, (rules_failed + 1)%Z).

(** [check_compliance]; [venv_ready] is [check_venv_setup()['ready']], read
    from the file system. *)
Definition check_compliance (venv_ready : bool) (states : task_states)
    (task_id : string) : compliance :=
  let rules_checked := Z.of_nat (length get_all_protocol_rules) in
  let counts := (0%Z, 0%Z) in
  let counts := tally (flag states task_id "requirements_gathered") counts in
  let counts := tally (flag states task_id "tests_written") counts in
  let counts := tally (flag states task_id "tests_approved") counts in
  let counts := tally (flag states task_id "implementation_complete") counts in
  let counts := tally (flag states task_id "todo_updated") counts in
  let counts := tally (flag states task_id "git_checks_complete") counts in
  let counts := tally venv_ready counts in
  let '(rules_passed, rules_failed) := counts in
  let remaining_rules := (rules_checked - (rules_passed + rules_failed))%Z in
  let '(rules_passed, rules_failed) :=
    if (0 <? remaining_rules)%Z
    then ((rules_passed + remaining_rules / 2)%Z,
          (rules_failed + (remaining_rules - remaining_rules / 2))%Z)
    else (rules_passed, rules_failed) in
  {| rules_checked := rules_checked; rules_passed := rules_passed;
     rules_failed := rules_failed;
     compliance_percentage :=
       (inject_Z rules_passed / inject_Z rules_checked * 100)%Q |}.

End Protocols.

(** * Properties *)

(** ** The text primitives on sample inputs *)

Example whole_word_hit : whole_word "build a react app" "react" = true.
Proof. reflexivity. Qed.

Example whole_word_inside_word : whole_word "build a reactive app" "react" = false.
Proof. reflexivity. Qed.

Example substring_inside_word : contains "build a reactive app" "react" = true.
Proof. reflexivity. Qed.

Example boundary_after_symbol : whole_word "use c++ now" "c++" = false.
Proof. reflexivity. Qed.

Example word_count_runs : Text.word_count "  rest   api " = 2%Z.
Proof. reflexivity. Qed.

Example strip_both_ends : Text.strip "  fix  css  " = "fix  css".
Proof. reflexivity. Qed.

Example dot_stops_at_line_feed :
  Re.search design_then_build "design it
then build it" = false.
Proof. reflexivity. Qed.

Example test_report_is_an_artifact :
  pattern_hits "build and test report" = [].
Proof. reflexivity. Qed.

(** ** Rationals *)

Lemma Qltb_lt x y : Qltb x y = true ↔ (x < y)%Q.
Proof.
  unfold Qltb. rewrite negb_true_iff, <- not_true_iff_false, Qle_bool_iff.
  split; [apply Qnot_le_lt | apply Qlt_not_le].
Qed.

Lemma Qltb_ge x y : Qltb x y = false ↔ (y <= x)%Q.
Proof. unfold Qltb. by rewrite negb_false_iff, Qle_bool_iff. Qed.

Lemma Qmin_cases x y :
  ((x <= y)%Q ∧ Qmin x y = x) ∨ ((y < x)%Q ∧ Qmin x y = y).
Proof.
  unfold Qmin, GenericMinMax.gmin. destruct (x ?= y)%Q eqn:E.
  - left. split; [apply Qeq_alt in E; lra | done].
  - left. split; [apply Qlt_alt in E; lra | done].
  - right. split; [by apply Qgt_alt in E | done].
Qed.

(** ** The keyword score *)

Lemma word_count_nonneg inside s : (0 <= Text.count_words inside s)%Z.
Proof.
  revert inside. induction s as [|c s IH]; intros inside; simpl; [done|].
  destruct (Text.is_space c); [apply IH|].
  specialize (IH true). destruct inside; lia.
Qed.

Lemma keyword_contribution_nonneg tl k : (0 <= keyword_contribution tl k)%Q.
Proof.
  unfold keyword_contribution. destruct (whole_word _ _); [|destruct (contains _ _); lra].
  pose proof (word_count_nonneg false (Text.lower k)) as H.
  assert (-1 <= inject_Z (Text.word_count (Text.lower k) - 1))%Q; [|lra].
  change (-1)%Q with (inject_Z (-1)). rewrite <- Zle_Qle. unfold Text.word_count. lia.
Qed.

Lemma keyword_step_contribution tl score k :
  (keyword_step tl score k == score + keyword_contribution tl k)%Q.
Proof.
  unfold keyword_step, keyword_contribution. cbv zeta.
  generalize (inject_Z (Text.word_count (Text.lower k) - 1)). intros q.
  destruct (whole_word _ _); [lra|]. destruct (contains _ _); lra.
Qed.

Lemma Qsum_cons q l : Qsum (q :: l) = (q + Qsum l)%Q.
Proof. done. Qed.

Lemma keyword_loop_sum tl kws score :
  (fold_left (keyword_step tl) kws score
   == score + Qsum (keyword_contribution tl <$> kws))%Q.
Proof.
  revert score. induction kws as [|k kws IH]; intros score.
  - simpl. lra.
  - simpl fold_left. rewrite fmap_cons, Qsum_cons, IH, keyword_step_contribution. lra.
Qed.

Lemma Qsum_nonneg l : Forall (λ q, (0 <= q)%Q) l → (0 <= Qsum l)%Q.
Proof. induction 1; [done|]. rewrite Qsum_cons. lra. Qed.

Lemma Qsum_elem_of q l : Forall (λ q, (0 <= q)%Q) l → q ∈ l → (q <= Qsum l)%Q.
Proof.
  induction 1 as [|x l Hx Hl IH]; [by intros ?%elem_of_nil|].
  pose proof (Qsum_nonneg l Hl). rewrite Qsum_cons.
  intros [->|Hin]%elem_of_cons; [lra|]. specialize (IH Hin). lra.
Qed.

Lemma agent_score_spec tl patterns a :
  (agent_score tl patterns a == spec_score tl patterns a)%Q.
Proof.
  unfold agent_score, calculate_agent_score, spec_score.
  cbv zeta.
  destruct (contains _ _), (bool_decide _); rewrite keyword_loop_sum; lra.
Qed.

(** ** Scoring and sorting the candidates *)

Lemma elem_of_score_agents tl patterns l sa :
  sa ∈ score_agents tl patterns l ↔
  ∃ a, a ∈ l ∧ (0 < agent_score tl patterns a)%Q
       ∧ sa = {| sc_agent := a; sc_score := agent_score tl patterns a |}.
Proof.
  induction l as [|a l IH]; simpl.
  - split; [by intros ?%elem_of_nil | by intros (? & ?%elem_of_nil & _)].
  - destruct (Qltb 0.0 _) eqn:E.
    + rewrite elem_of_cons, IH. apply Qltb_lt in E. split.
      * intros [->|(b & ? & ? & ?)]; [exists a | exists b]; repeat split; auto.
        -- left.
        -- lra.
        -- by right.
      * intros (b & [->|?]%elem_of_cons & ? & ?); [by left | right; eauto].
    + rewrite IH. apply Qltb_ge in E. split.
      * intros (b & ? & ? & ?). exists b. repeat split; auto. by right.
      * intros (b & [->|?]%elem_of_cons & ? & ?); [lra | eauto].
Qed.

Lemma elem_of_insert_desc x y l : x ∈ insert_desc y l ↔ x = y ∨ x ∈ l.
Proof.
  induction l as [|z l IH]; simpl.
  - rewrite list_elem_of_singleton, elem_of_nil. tauto.
  - destruct (Qltb _ _); rewrite !elem_of_cons; [rewrite IH|]; tauto.
Qed.

Lemma elem_of_sort_desc x l : x ∈ sort_desc l ↔ x ∈ l.
Proof.
  induction l as [|y l IH]; simpl; [done|].
  rewrite elem_of_insert_desc, elem_of_cons, IH. tauto.
Qed.

Lemma sort_desc_nil l : sort_desc l = [] → l = [].
Proof.
  destruct l as [|x l]; [done|]. intros H.
  assert (Hx : x ∈ sort_desc (x :: l)) by (apply elem_of_sort_desc; left).
  rewrite H in Hx. by apply elem_of_nil in Hx.
Qed.

(** The head of the sorted list has the greatest score. *)
Lemma sort_desc_head_max l top rest :
  sort_desc l = top :: rest → Forall (λ x, (sc_score x <= sc_score top)%Q) l.
Proof.
  revert top rest. induction l as [|x l IH]; intros top rest; simpl; [done|].
  destruct (sort_desc l) as [|y ys] eqn:E.
  - apply sort_desc_nil in E as ->. simpl. intros [= <- _].
    constructor; [lra | constructor].
  - specialize (IH y ys eq_refl). simpl. destruct (Qltb _ _) eqn:Elt.
    + intros [= <- _]. apply Qltb_lt in Elt. constructor; [lra | done].
    + intros [= <- _]. apply Qltb_ge in Elt. constructor; [lra|].
      eapply Forall_impl; [exact IH|]. simpl. intros z Hz. lra.
Qed.

Lemma scored_candidates_elem_of cfg tl sa :
  sa ∈ scored_candidates cfg tl ↔
  ∃ a, a ∈ get_all_agents cfg
       ∧ (0 < agent_score tl (detect_multi_agent_patterns tl) a)%Q
       ∧ sa = {| sc_agent := a;
                 sc_score := agent_score tl (detect_multi_agent_patterns tl) a |}.
Proof. unfold scored_candidates. by rewrite elem_of_sort_desc, elem_of_score_agents. Qed.

Lemma scored_candidates_positive cfg tl sa :
  sa ∈ scored_candidates cfg tl → (0 < sc_score sa)%Q.
Proof. intros (a & _ & Hpos & ->)%scored_candidates_elem_of. done. Qed.

(** ** The similar agents *)

Lemma add_pattern_agent_mono patterns similar sa a :
  a ∈ similar → a ∈ add_pattern_agent patterns similar sa.
Proof.
  intros Ha. unfold add_pattern_agent. cbv zeta.
  destruct (_ && _); [|done]. destruct (negb _); [|done].
  apply elem_of_app. by left.
Qed.

Lemma add_pattern_loop_mono patterns scores similar a :
  a ∈ similar → a ∈ fold_left (add_pattern_agent patterns) scores similar.
Proof.
  revert similar. induction scores as [|sa scores IH]; intros similar Ha; simpl; [done|].
  by apply IH, add_pattern_agent_mono.
Qed.

Lemma add_pattern_loop_adds patterns scores similar sa :
  sa ∈ scores → name (sc_agent sa) ∈ patterns → (2 <= sc_score sa)%Q →
  sc_agent sa ∈ fold_left (add_pattern_agent patterns) scores similar.
Proof.
  revert similar. induction scores as [|sb scores IH]; intros similar Hin Hpat Hsc.
  { by apply elem_of_nil in Hin. }
  simpl. apply elem_of_cons in Hin as [<-|Hin]; [|by apply IH].
  apply add_pattern_loop_mono. unfold add_pattern_agent. cbv zeta.
  rewrite bool_decide_eq_true_2 by done.
  replace (Qle_bool 2.0 (sc_score sa)) with true
    by (symmetry; apply Qle_bool_iff; lra).
  simpl. case_bool_decide; simpl; [done|]. apply elem_of_app. right. left.
Qed.

Lemma similar_agents_pattern patterns scores top_score sa :
  sa ∈ scores → name (sc_agent sa) ∈ patterns → (2 <= sc_score sa)%Q →
  sc_agent sa ∈ similar_agents patterns scores top_score.
Proof. intros. unfold similar_agents. by apply add_pattern_loop_adds. Qed.

(** ** The decision *)

Lemma multi_decision_required patterns top similar :
  (multi_decision patterns top similar).2 ≠ [].
Proof.
  unfold multi_decision. cbv zeta. destruct (1 <? length similar)%nat eqn:E; [|done].
  destruct (_ || _); [|done]. simpl. apply Nat.ltb_lt in E.
  destruct similar; simpl in *; [lia | done].
Qed.

Lemma multi_decision_multi patterns top similar :
  (multi_decision patterns top similar).1 = true →
  (multi_decision patterns top similar).2 = firstn 5 similar.
Proof.
  unfold multi_decision. cbv zeta. destruct (1 <? length similar)%nat; [|done].
  by destruct (_ || _).
Qed.

Lemma multi_decision_by_patterns patterns top similar :
  (1 < length similar)%nat → (1 < size patterns)%nat →
  multi_decision patterns top similar = (true, firstn 5 similar).
Proof.
  intros H1%Nat.ltb_lt H2%Nat.ltb_lt. unfold multi_decision. cbv zeta.
  by rewrite H1, H2, !orb_true_r.
Qed.

Lemma analyze_task_none cfg task :
  scored_candidates cfg (Text.lower (as_text task)) = [] →
  analyze_task cfg task =
  d ← get_default_agent cfg;
  mret {| is_multi_agent := false; required_agents := [d];
          confidence_score := 0.0%Q |}.
Proof. intros H. unfold analyze_task. cbv zeta. by rewrite H. Qed.

Lemma analyze_task_low cfg task top rest :
  scored_candidates cfg (Text.lower (as_text task)) = top :: rest →
  (sc_score top < 2)%Q →
  analyze_task cfg task =
  d ← get_default_agent cfg;
  mret {| is_multi_agent := false; required_agents := [d];
          confidence_score := Qmin (0.1 + sc_score top * 0.05)%Q 0.3%Q |}.
Proof.
  intros H Hlt. unfold analyze_task. cbv zeta. rewrite H.
  replace (Qltb (sc_score top) 2.0) with true; [done|].
  symmetry. apply Qltb_lt. lra.
Qed.

Lemma analyze_task_one cfg task top :
  scored_candidates cfg (Text.lower (as_text task)) = [top] →
  (2 <= sc_score top)%Q →
  analyze_task cfg task =
  Ok {| is_multi_agent := false; required_agents := [sc_agent top];
        confidence_score := Qmin (0.3 + sc_score top * 0.1)%Q 1.0%Q |}.
Proof.
  intros H Hge. unfold analyze_task. cbv zeta. rewrite H.
  replace (Qltb (sc_score top) 2.0) with false; [done|].
  symmetry. apply Qltb_ge. lra.
Qed.

Lemma analyze_task_many cfg task top x rest :
  let tl := Text.lower (as_text task) in
  let patterns := detect_multi_agent_patterns tl in
  scored_candidates cfg tl = top :: x :: rest →
  (2 <= sc_score top)%Q →
  let d := multi_decision patterns top
             (similar_agents patterns (top :: x :: rest) (sc_score top)) in
  analyze_task cfg task =
  Ok {| is_multi_agent := d.1; required_agents := d.2;
        confidence_score := Qmin (0.3 + sc_score top * 0.1)%Q 1.0%Q |}.
Proof.
  intros tl patterns H Hge d. unfold analyze_task. cbv zeta. fold tl. rewrite H.
  replace (Qltb (sc_score top) 2.0) with false
    by (symmetry; apply Qltb_ge; lra).
  fold patterns. fold d. by destruct d.
Qed.

(** The shape of every result of [analyze_task]. *)
Lemma analyze_task_inv cfg task r :
  analyze_task cfg task = Ok r →
  required_agents r ≠ []
  ∧ (0 <= confidence_score r <= 1)%Q
  ∧ (is_multi_agent r = true → (2 <= length (required_agents r))%nat).
Proof.
  set (tl := Text.lower (as_text task)).
  destruct (scored_candidates cfg tl) as [|top [|x rest]] eqn:E.
  - rewrite analyze_task_none by done. destruct (get_default_agent cfg); [|done].
    intros [= <-]. simpl. repeat split; [done|lra..|done].
  - assert (Hpos : (0 < sc_score top)%Q).
    { apply (scored_candidates_positive cfg tl). rewrite E. left. }
    destruct (Qlt_le_dec (sc_score top) 2) as [Hlt|Hge].
    + rewrite (analyze_task_low _ _ _ _ E Hlt).
      destruct (get_default_agent cfg); [|done]. intros [= <-]. simpl.
      destruct (Qmin_cases (0.1 + sc_score top * 0.05) 0.3) as [[? ->]|[? ->]];
        repeat split; (done || lra).
    + rewrite (analyze_task_one _ _ _ E Hge). intros [= <-]. simpl.
      destruct (Qmin_cases (0.3 + sc_score top * 0.1) 1.0) as [[? ->]|[? ->]];
        repeat split; (done || lra).
  - assert (Hpos : (0 < sc_score top)%Q).
    { apply (scored_candidates_positive cfg tl). rewrite E. left. }
    destruct (Qlt_le_dec (sc_score top) 2) as [Hlt|Hge].
    + rewrite (analyze_task_low _ _ _ _ E Hlt).
      destruct (get_default_agent cfg); [|done]. intros [= <-]. simpl.
      destruct (Qmin_cases (0.1 + sc_score top * 0.05) 0.3) as [[? ->]|[? ->]];
        repeat split; (done || lra).
    + rewrite (analyze_task_many _ _ _ _ _ E Hge). intros [= <-]. simpl.
      split; [apply multi_decision_required|]. split.
      * destruct (Qmin_cases (0.3 + sc_score top * 0.1) 1.0) as [[? ->]|[? ->]]; lra.
      * intros Hm. rewrite (multi_decision_multi _ _ _ Hm).
        revert Hm. unfold multi_decision. cbv zeta.
        destruct (1 <? length _)%nat eqn:El; [|done]. intros _.
        apply Nat.ltb_lt in El. rewrite length_take. lia.
Qed.

(** ** The sequence of steps *)

Lemma find_elem_of {A} (f : A → bool) l x : find f l = Some x → x ∈ l.
Proof. intros H. apply find_some in H. apply list_elem_of_In. tauto. Qed.

Lemma default_find_elem_of {A} (f : A → bool) l x0 :
  x0 ∈ l → default x0 (find f l) ∈ l.
Proof.
  intros H0. destruct (find f l) eqn:E; simpl; [|done]. by eapply find_elem_of.
Qed.

Section SequenceFacts.
Variable names : list string.

Lemma seq_inv_init : seq_inv names ([], 1%Z).
Proof. repeat split; simpl; auto. Qed.

Lemma add_step_inv st who act deliv dur protos :
  seq_inv names st → who ∈ names →
  seq_inv names (add_step st who act deliv dur protos).
Proof.
  destruct st as [l n]. intros (Hnum & Hnext & Hwho) Hin. simpl in *.
  repeat split; simpl.
  - rewrite fmap_app, length_app, Nat.add_1_r, seqZ_S, Hnum. simpl.
    by rewrite Hnext.
  - rewrite length_app. simpl. lia.
  - apply Forall_app. split; [done|]. by constructor.
Qed.

Lemma implementation_step_inv st a :
  seq_inv names st → name a ∈ names → seq_inv names (implementation_step st a).
Proof.
  intros Hst Hin. unfold implementation_step.
  destruct (_ && _); [by apply add_step_inv | done].
Qed.

Lemma implementation_loop_inv l st :
  seq_inv names st → Forall (λ a, name a ∈ names) l →
  seq_inv names (fold_left implementation_step l st).
Proof.
  revert st. induction l as [|a l IH]; intros st Hst Hl; simpl; [done|].
  inversion Hl; subst. apply IH; [|done]. by apply implementation_step_inv.
Qed.
Section Phases.
Variable agents : list agent.
Variable primary : agent.
Hypothesis primary_in : primary ∈ agents.
Hypothesis names_of : ∀ a, a ∈ agents → name a ∈ names.

Lemma requirements_phase_inv st :
  seq_inv names st → seq_inv names (requirements_phase primary st).
Proof. intros. apply add_step_inv; auto. Qed.

Lemma design_phase_inv st :
  seq_inv names st → seq_inv names (design_phase agents st).
Proof.
  intros. unfold design_phase. destruct (existsb _ _); [|done].
  destruct (find _ _) eqn:E; [|done].
  apply add_step_inv; [done|]. apply names_of. by eapply find_elem_of.
Qed.

Lemma testing_phase_inv text st :
  seq_inv names st → seq_inv names (testing_phase agents primary text st).
Proof.
  intros. unfold testing_phase. destruct (mentions_any _ _); [|done].
  apply add_step_inv; [done|]. apply names_of. by apply default_find_elem_of.
Qed.

Lemma deployment_phase_inv text st :
  seq_inv names st → seq_inv names (deployment_phase agents primary text st).
Proof.
  intros. unfold deployment_phase. destruct (mentions_any _ _); [|done].
  apply add_step_inv; [done|]. apply names_of. by apply default_find_elem_of.
Qed.
End Phases.
End SequenceFacts.

Lemma generate_sequence_ok a rest text :
  ∃ sq, generate_sequence (a :: rest) (TaskStr text) = Ok sq.
Proof. simpl. eauto. Qed.

Lemma seq_inv_fst names st :
  seq_inv names st → seq_inv names (st.1, (1 + Z.of_nat (length st.1))%Z).
Proof. destruct st as [l n]. intros (? & ? & ?). repeat split; done. Qed.

Lemma final_state_inv agents primary text :
  primary ∈ agents →
  seq_inv (name <$> agents)
    (deployment_phase agents primary text
       (testing_phase agents primary text
          (fold_left implementation_step agents
             (design_phase agents (requirements_phase primary ([], 1%Z)))))).
Proof.
  intros Hp.
  assert (Hname : ∀ a, a ∈ agents → name a ∈ name <$> agents).
  { intros a Ha. by apply list_elem_of_fmap_2. }
  eapply deployment_phase_inv; [done..|].
  eapply testing_phase_inv; [done..|].
  apply implementation_loop_inv; [|apply Forall_forall; auto].
  eapply design_phase_inv; [done|].
  eapply requirements_phase_inv; [done..|].
  apply seq_inv_init.
Qed.

Lemma generate_sequence_inv agents task sq :
  generate_sequence agents task = Ok sq →
  seq_inv (name <$> agents) (sq, (1 + Z.of_nat (length sq))%Z).
Proof.
  unfold generate_sequence. destruct agents as [|primary rest] eqn:Eag; [done|].
  rewrite <- Eag. destruct task as [text|]; [|done].
  intros [= <-]. apply seq_inv_fst, final_state_inv. subst. left.
Qed.

(** ** Dependencies *)

Lemma map_dependencies_lookup l (m : gmap Z (list Z)) (n : Z) :
  fold_left dependency_step l m !! n =
  if bool_decide ((1 < n)%Z ∧ n ∈ step_number <$> l) then Some [(n - 1)%Z] else m !! n.
Proof.
  revert m. induction l as [|s l IH]; intros m; simpl.
  - rewrite bool_decide_eq_false_2; [done|]. intros [_ H]. by apply elem_of_nil in H.
  - rewrite IH. unfold dependency_step. cbv zeta.
    destruct (bool_decide (_ ∧ n ∈ step_number <$> l)) eqn:E1.
    + apply bool_decide_eq_true in E1 as [? ?].
      rewrite bool_decide_eq_true_2; [done|]. split; [done|]. by right.
    + apply bool_decide_eq_false in E1.
      destruct (Z.ltb_spec 1 (step_number s)) as [Hlt|Hge].
      * destruct (decide (step_number s = n)) as [Heq|Hne].
        -- rewrite Heq in *.
           rewrite lookup_insert_eq, bool_decide_eq_true_2; [done|]. split; [done|left].
        -- rewrite lookup_insert_ne by done.
           rewrite bool_decide_eq_false_2; [done|].
           intros [? [?|?]%elem_of_cons]; [congruence | tauto].
      * rewrite bool_decide_eq_false_2; [done|].
        intros [? [?|?]%elem_of_cons]; [lia | tauto].
Qed.

Lemma map_dependencies_numbered l (n : Z) :
  step_number <$> l = seqZ 1 (Z.of_nat (length l)) →
  map_dependencies l !! n =
  if bool_decide (1 < n ≤ Z.of_nat (length l))%Z then Some [(n - 1)%Z] else None.
Proof.
  intros Hnum. unfold map_dependencies. rewrite map_dependencies_lookup, Hnum.
  rewrite lookup_empty. apply (f_equal (λ b : bool, if b then _ else _)).
  apply bool_decide_ext. rewrite elem_of_seqZ. lia.
Qed.

(** ** Handoffs *)

Lemma flat_map_fmap {A B C} (f : B → list C) (g : A → B) (l : list A) :
  flat_map f (g <$> l) = flat_map (λ x, f (g x)) l.
Proof. induction l as [|x l IH]; simpl; [done|]. by f_equal. Qed.

Lemma handoff_at_cons a sq i : handoff_at (a :: sq) (S i) = handoff_at sq i.
Proof. done. Qed.

Lemma generate_handoffs_cons a b sq :
  generate_handoffs (a :: b :: sq) =
  (if bool_decide (step_agent a ≠ step_agent b) then [make_handoff a b] else [])
  ++ generate_handoffs (b :: sq).
Proof.
  change (generate_handoffs (a :: b :: sq))
    with (handoff_at (a :: b :: sq) 0
          ++ flat_map (handoff_at (a :: b :: sq)) (seq 1 (length sq))).
  rewrite <- fmap_S_seq, flat_map_fmap.
  unfold generate_handoffs. simpl length.
  replace (S (length sq) - 1)%nat with (length sq) by lia. done.
Qed.

Lemma generate_handoffs_spec sq : generate_handoffs sq = handoffs_spec sq.
Proof.
  induction sq as [|a [|b sq] IH]; [done..|].
  rewrite generate_handoffs_cons, IH. unfold handoffs_spec, differing_pairs. simpl adjacent_pairs.
  rewrite filter_cons. simpl. case_bool_decide; case_decide; done.
Qed.

Lemma adjacent_pairs_elem_of a b sq :
  (a, b) ∈ adjacent_pairs sq → a ∈ sq ∧ b ∈ sq.
Proof.
  induction sq as [|x [|y sq] IH]; simpl; [by intros ?%elem_of_nil..|].
  intros [[= -> ->]|H]%elem_of_cons.
  - split; [left | right; left].
  - destruct (IH H). split; by right.
Qed.

Lemma handoffs_spec_elem_of h sq :
  h ∈ handoffs_spec sq →
  ∃ a b, (a, b) ∈ adjacent_pairs sq ∧ step_agent a ≠ step_agent b
         ∧ h = make_handoff a b.
Proof.
  unfold handoffs_spec, differing_pairs.
  intros ([a b] & -> & [Hne Hin]%list_elem_of_filter)%list_elem_of_fmap.
  eauto.
Qed.

Lemma handoffs_same_agent who sq :
  Forall (λ s, step_agent s = who) sq → handoffs_spec sq = [].
Proof.
  intros Hall. unfold handoffs_spec, differing_pairs.
  induction Hall as [|a [|b sq] Ha Hall IH]; [done..|].
  simpl adjacent_pairs. rewrite filter_cons.
  inversion Hall; subst. rewrite decide_False; [done|]. simpl. intros Hne. by apply Hne.
Qed.

(** ** Totality *)

Lemma analyze_task_total cfg task d :
  get_default_agent cfg = Ok d → ∃ r, analyze_task cfg task = Ok r.
Proof.
  intros Hd. unfold analyze_task. cbv zeta.
  destruct (scored_candidates _ _) as [|top [|x rest]]; rewrite ?Hd; simpl; eauto.
  - destruct (Qltb _ _); rewrite ?Hd; simpl; eauto.
  - destruct (Qltb _ _); rewrite ?Hd; simpl; eauto. destruct (multi_decision _ _ _). eauto.
Qed.

Lemma primary_agent_cases cfg a :
  primary_agent cfg a =
  match required_agents a with
  | x :: _ => Ok x
  | [] => get_default_agent cfg
  end.
Proof.
  unfold primary_agent. destruct (required_agents a); simpl; [|by destruct (is_multi_agent a)].
  by rewrite andb_false_r.
Qed.

Lemma select_agent_total cfg task d :
  get_default_agent cfg = Ok d → ∃ a, select_agent cfg task = Ok a.
Proof.
  intros Hd. unfold select_agent. cbv zeta. destruct (_ || _); [eauto|].
  destruct (analyze_task_total cfg (TaskStr (Text.strip (as_text task))) d Hd) as [r Hr].
  rewrite Hr. simpl. rewrite primary_agent_cases.
  destruct (required_agents r); eauto.
Qed.

Lemma planner_agents_inv cfg task l :
  planner_agents cfg task = Ok l → l ≠ [].
Proof.
  unfold planner_agents. destruct (analyze_task cfg task) as [r|] eqn:E; [|done]. simpl.
  destruct (is_multi_agent r).
  - intros [= <-]. by apply analyze_task_inv in E as (? & _).
  - destruct (select_agent cfg task); [|done]. by intros [= <-].
Qed.

Lemma planner_agents_total cfg task d :
  get_default_agent cfg = Ok d → ∃ l, planner_agents cfg task = Ok l.
Proof.
  intros Hd. unfold planner_agents.
  destruct (analyze_task_total cfg task d Hd) as [r ->]. simpl.
  destruct (is_multi_agent r); [eauto|].
  destruct (select_agent_total cfg task d Hd) as [a ->]. simpl. eauto.
Qed.

Lemma generate_plan_total cfg text d :
  get_default_agent cfg = Ok d → ∃ p, generate_plan cfg (TaskStr text) = Ok p.
Proof.
  intros Hd. unfold generate_plan.
  destruct (planner_agents_total cfg (TaskStr text) d Hd) as [l Hl]. rewrite Hl. simpl.
  pose proof (planner_agents_inv _ _ _ Hl). destruct l as [|a l]; [done|].
  unfold build_plan.
  destruct (generate_sequence_ok a l text) as [sq ->]. simpl. eauto.
Qed.

Lemma generate_plan_inv cfg task p :
  generate_plan cfg task = Ok p →
  ∃ l sq, planner_agents cfg task = Ok l ∧ generate_sequence l task = Ok sq
    ∧ p = {| task := task; agents := agent_details_of <$> l; sequence := sq;
             handoff_points := generate_handoffs sq;
             dependencies := map_dependencies sq;
             parallel_groups := identify_parallel_work l |}.
Proof.
  unfold generate_plan. destruct (planner_agents cfg task) as [l|]; [|done]. simpl.
  unfold build_plan. destruct (generate_sequence l task) as [sq|] eqn:E; [|done]. simpl.
  intros [= <-]. by exists l, sq.
Qed.

(** ** The pattern detectors *)

Section PatternFacts.
Variable tl : string.

Lemma full_stack_rule_mono ra x : x ∈ ra → x ∈ full_stack_rule tl ra.
Proof. unfold full_stack_rule. destruct (_ || _); set_solver. Qed.

Lemma design_build_rule_mono ra x : x ∈ ra → x ∈ design_build_rule tl ra.
Proof. unfold design_build_rule. destruct (_ || _); set_solver. Qed.

Lemma frontend_backend_rule_mono ra x : x ∈ ra → x ∈ frontend_backend_rule tl ra.
Proof.
  unfold frontend_backend_rule. destruct (_ && _); [set_solver|].
  destruct (_ && _); set_solver.
Qed.

Lemma build_test_rule_mono ra x : x ∈ ra → x ∈ build_test_rule tl ra.
Proof.
  unfold build_test_rule. cbv zeta. destruct (_ && _); [|done].
  destruct (_ || _); [destruct (negb _); set_solver|].
  destruct (_ || _); [destruct (negb _); set_solver|set_solver].
Qed.

Lemma deploy_rule_mono ra x : x ∈ ra → x ∈ deploy_rule tl ra.
Proof. unfold deploy_rule. destruct (_ || _); set_solver. Qed.

Lemma design_rule_mono ra x : x ∈ ra → x ∈ design_rule tl ra.
Proof.
  unfold design_rule. destruct (Re.search _ _); [|done].
  destruct (negb _); [|done]. destruct (negb _); set_solver.
Qed.

Lemma dashboard_rule_mono ra x : x ∈ ra → x ∈ dashboard_rule tl ra.
Proof.
  unfold dashboard_rule. cbv zeta. destruct (contains _ _); [|done].
  destruct (negb (has "UI Designer" ra)); destruct (negb _); set_solver.
Qed.

Lemma frontend_backend_rule_hits ra :
  contains tl "frontend" = true → contains tl "backend" = true →
  "Frontend Developer" ∈ frontend_backend_rule tl ra
  ∧ "Backend Architect" ∈ frontend_backend_rule tl ra.
Proof. intros Hf Hb. unfold frontend_backend_rule. rewrite Hf, Hb. set_solver. Qed.

Lemma pattern_hits_frontend_backend :
  contains tl "frontend" = true → contains tl "backend" = true →
  "Frontend Developer" ∈ detect_multi_agent_patterns tl
  ∧ "Backend Architect" ∈ detect_multi_agent_patterns tl.
Proof.
  intros Hf Hb. unfold detect_multi_agent_patterns, pattern_hits. cbv zeta.
  rewrite !elem_of_list_to_set.
  destruct (frontend_backend_rule_hits
              (design_build_rule tl (full_stack_rule tl [])) Hf Hb).
  split; by apply dashboard_rule_mono, design_rule_mono, deploy_rule_mono,
                  build_test_rule_mono.
Qed.
End PatternFacts.

Lemma two_elements_length {A} (x y : A) l : x ∈ l → y ∈ l → x ≠ y → (1 < length l)%nat.
Proof.
  destruct l as [|a [|b l]]; simpl; [|rewrite !list_elem_of_singleton; congruence|lia].
  intros Hx. by apply elem_of_nil in Hx.
Qed.

Lemma two_elements_size (x y : string) (X : gset string) :
  x ∈ X → y ∈ X → x ≠ y → (1 < size X)%nat.
Proof.
  intros Hx Hy Hne. assert (Hsub : ({[x]} ∪ {[y]} : gset string) ⊆ X).
  { intros z Hz. apply elem_of_union in Hz as [Hz|Hz];
      apply elem_of_singleton in Hz; by subst. }
  apply subseteq_size in Hsub. rewrite size_union in Hsub.
  - rewrite !size_singleton in Hsub. lia.
  - intros z Hzx Hzy. apply elem_of_singleton in Hzx, Hzy. congruence.
Qed.

(** A keyword found in the task is worth at least one point. *)
Lemma keyword_contribution_found tl k :
  contains tl (Text.lower k) = true → (1 <= keyword_contribution tl k)%Q.
Proof.
  intros H. unfold keyword_contribution. cbv zeta. rewrite H.
  destruct (whole_word _ _); [|lra].
  pose proof (word_count_nonneg false (Text.lower k)) as Hwc.
  assert (-1 <= inject_Z (Text.word_count (Text.lower k) - 1))%Q; [|lra].
  change (-1)%Q with (inject_Z (-1)). rewrite <- Zle_Qle. unfold Text.word_count. lia.
Qed.

Lemma spec_score_boosted tl patterns a k :
  k ∈ keywords a → contains tl (Text.lower k) = true → name a ∈ patterns →
  (4 <= spec_score tl patterns a)%Q.
Proof.
  intros Hk Hfound Hpat. unfold spec_score.
  rewrite bool_decide_eq_true_2 by done.
  assert (1 <= Qsum (keyword_contribution tl <$> keywords a))%Q.
  { eapply Qle_trans; [by apply keyword_contribution_found|].
    apply Qsum_elem_of; [|by apply list_elem_of_fmap_2].
    apply Forall_fmap, Forall_forall. intros ? _. apply keyword_contribution_nonneg. }
  destruct (contains tl (Text.lower (name a))); lra.
Qed.

(** * The claims *)

(** C1. For every task and every specialist of the catalogue, the score the
    matcher gives the specialist is the sum, over its keywords, of
    [2.0 + 0.5 * (wordCount - 1)] for a whole-word match, [1.0] for a
    substring match and [0.0] otherwise, plus [5.0] when the lower-cased name
    occurs in the lower-cased task, plus [3.0] when the pattern detectors
    name the specialist; and the specialist is a candidate, with that score,
    exactly when the sum is positive. *)
Theorem keyword_score_formula (cfg : config) (t : string) (a : agent) :
  a ∈ get_all_agents cfg →
  let tl := Text.lower t in
  let patterns := detect_multi_agent_patterns tl in
  (agent_score tl patterns a == spec_score tl patterns a)%Q
  ∧ ({| sc_agent := a; sc_score := agent_score tl patterns a |}
       ∈ scored_candidates cfg tl
     ↔ (0 < spec_score tl patterns a)%Q).
Proof.
  intros Ha tl patterns. split; [apply agent_score_spec|].
  rewrite scored_candidates_elem_of, <- agent_score_spec. split.
  - intros (b & _ & Hpos & [= ->]). done.
  - intros Hpos. by exists a.
Qed.

Lemma keyword_score_formula_witness :
  let a := with_category "engineering" Sample.frontend in
  let tl := Text.lower "Build a React frontend" in
  let patterns := detect_multi_agent_patterns tl in
  (agent_score tl patterns a == spec_score tl patterns a)%Q
  ∧ ({| sc_agent := a; sc_score := agent_score tl patterns a |}
       ∈ scored_candidates Sample.catalogue tl
     ↔ (0 < spec_score tl patterns a)%Q).
Proof.
  apply (keyword_score_formula Sample.catalogue "Build a React frontend").
  apply (bool_decide_unpack _). vm_compute. exact I.
Defined.



(** C3, as stated, fails: the required list is cut to five entries.  In the
    crowded catalogue the task names both "frontend" and "backend", the
    analysis is multi-specialist, and neither the Frontend Developer nor the
    Backend Architect is among the five required specialists. *)
Lemma frontend_backend_cut_off :
  let fd := with_category "engineering" Sample.frontend in
  let ba := with_category "engineering" Sample.backend in
  let tl := Text.lower Sample.crowded_task in
  contains tl "frontend" = true ∧ contains tl "backend" = true
  ∧ fd ∈ get_all_agents Sample.crowded ∧ ba ∈ get_all_agents Sample.crowded
  ∧ "frontend" ∈ keywords fd ∧ "backend" ∈ keywords ba
  ∧ ∃ r, analyze_task Sample.crowded (TaskStr Sample.crowded_task) = Ok r
         ∧ is_multi_agent r = true
         ∧ (fd ∉ required_agents r) ∧ (ba ∉ required_agents r).
Proof.
  intros fd ba tl.
  split; [by vm_compute|]. split; [by vm_compute|].
  split; [apply (bool_decide_unpack _); by vm_compute|].
  split; [apply (bool_decide_unpack _); by vm_compute|].
  split; [apply (bool_decide_unpack _); by vm_compute|].
  split; [apply (bool_decide_unpack _); by vm_compute|].
  eexists. split; [by vm_compute|]. split; [done|].
  split; apply (bool_decide_unpack _); by vm_compute.
Qed.

(** C3, amended.  For a task whose lower-cased text contains "frontend" and
    "backend", and a catalogue holding a 'Frontend Developer' with the
    keyword "frontend" and a 'Backend Architect' with the keyword "backend":
    the analysis is multi-specialist, both specialists are in the similar
    set, and the required list is the first five entries of that set; so
    both are required whenever the similar set has at most five members. *)
Theorem frontend_backend_multi (cfg : config) (t : string) (fd ba : agent) :
  let tl := Text.lower t in
  let patterns := detect_multi_agent_patterns tl in
  contains tl "frontend" = true → contains tl "backend" = true →
  fd ∈ get_all_agents cfg → name fd = "Frontend Developer" →
  "frontend" ∈ Text.lower <$> keywords fd →
  ba ∈ get_all_agents cfg → name ba = "Backend Architect" →
  "backend" ∈ Text.lower <$> keywords ba →
  ∃ r top,
    analyze_task cfg (TaskStr t) = Ok r
    ∧ head (scored_candidates cfg tl) = Some top
    ∧ let similar :=
        similar_agents patterns (scored_candidates cfg tl) (sc_score top) in
      is_multi_agent r = true
      ∧ required_agents r = firstn 5 similar
      ∧ fd ∈ similar ∧ ba ∈ similar
      ∧ ((length similar <= 5)%nat →
         fd ∈ required_agents r ∧ ba ∈ required_agents r).
Proof.
  intros tl patterns Hf Hb Hfd Hfdn Hfdk Hba Hban Hbak.
  destruct (pattern_hits_frontend_backend tl Hf Hb) as [Pf Pb]. fold patterns in Pf, Pb.
  apply list_elem_of_fmap in Hfdk as (kf & Ekf & Hkf).
  apply list_elem_of_fmap in Hbak as (kb & Ekb & Hkb).
  assert (Sf : (4 <= agent_score tl patterns fd)%Q).
  { rewrite agent_score_spec. apply (spec_score_boosted _ _ _ kf); [done|..].
    - by rewrite <- Ekf.
    - by rewrite Hfdn. }
  assert (Sb : (4 <= agent_score tl patterns ba)%Q).
  { rewrite agent_score_spec. apply (spec_score_boosted _ _ _ kb); [done|..].
    - by rewrite <- Ekb.
    - by rewrite Hban. }
  set (sf := {| sc_agent := fd; sc_score := agent_score tl patterns fd |}).
  set (sb := {| sc_agent := ba; sc_score := agent_score tl patterns ba |}).
  assert (Cf : sf ∈ scored_candidates cfg tl).
  { apply scored_candidates_elem_of. exists fd. repeat split; [done|]. fold patterns. lra. }
  assert (Cb : sb ∈ scored_candidates cfg tl).
  { apply scored_candidates_elem_of. exists ba. repeat split; [done|]. fold patterns. lra. }
  assert (Hne : fd ≠ ba) by (intros ->; rewrite Hfdn in Hban; discriminate).
  assert (Hlen : (1 < length (scored_candidates cfg tl))%nat).
  { apply (two_elements_length sf sb); [done..|]. intros [= ? _]. done. }
  assert (Hin : sf ∈ score_agents tl patterns (get_all_agents cfg)).
  { by apply elem_of_sort_desc. }
  destruct (scored_candidates cfg tl) as [|top [|x rest]] eqn:E; simpl in Hlen; [lia..|].
  assert (Htop : (4 <= sc_score top)%Q).
  { assert (Hmax := sort_desc_head_max _ _ _ E).
    rewrite Forall_forall in Hmax. specialize (Hmax _ Hin). simpl in Hmax. lra. }
  set (similar := similar_agents patterns (top :: x :: rest) (sc_score top)).
  assert (Hsf : fd ∈ similar).
  { apply (similar_agents_pattern _ _ _ sf); [done|simpl; by rewrite Hfdn|simpl; lra]. }
  assert (Hsb : ba ∈ similar).
  { apply (similar_agents_pattern _ _ _ sb); [done|simpl; by rewrite Hban|simpl; lra]. }
  assert (Hdec : multi_decision patterns top similar = (true, firstn 5 similar)).
  { apply multi_decision_by_patterns.
    - by apply (two_elements_length fd ba).
    - by apply (two_elements_size "Frontend Developer" "Backend Architect"). }
  exists {| is_multi_agent := true; required_agents := firstn 5 similar;
            confidence_score := Qmin (0.3 + sc_score top * 0.1)%Q 1.0%Q |}, top.
  split.
  { rewrite (analyze_task_many cfg (TaskStr t) top x rest E) by lra.
    cbv zeta. simpl as_text. fold tl. fold patterns. fold similar. by rewrite Hdec. }
  split; [done|]. cbv zeta. fold similar. simpl.
  repeat split; try done; rewrite firstn_all2 by done; done.
Qed.

Lemma frontend_backend_multi_witness :
  let fd := with_category "engineering" Sample.frontend in
  let ba := with_category "engineering" Sample.backend in
  ∃ r, analyze_task Sample.catalogue (TaskStr "Frontend and backend work") = Ok r
       ∧ is_multi_agent r = true
       ∧ fd ∈ required_agents r ∧ ba ∈ required_agents r.
Proof.
  intros fd ba.
  destruct (frontend_backend_multi Sample.catalogue "Frontend and backend work" fd ba)
    as (r & top & Hr & Htop & Hmulti & Hreq & _ & _ & Hboth).
  - vm_compute. reflexivity.
  - vm_compute. reflexivity.
  - apply (bool_decide_unpack _). vm_compute. exact I.
  - reflexivity.
  - apply (bool_decide_unpack _). vm_compute. exact I.
  - apply (bool_decide_unpack _). vm_compute. exact I.
  - reflexivity.
  - apply (bool_decide_unpack _). vm_compute. exact I.
  - exists r. split; [exact Hr|]. split; [exact Hmulti|]. apply Hboth.
    vm_compute in Htop. injection Htop as <-. vm_compute. lia.
Defined.

(** C4. For every task, a string or not, empty or blank or arbitrary, the
    confidence of the analysis lies between 0.0 and 1.0. *)
Theorem confidence_in_unit_interval (cfg : config) (task : task_arg) (d : agent) :
  get_default_agent cfg = Ok d →
  ∃ r, analyze_task cfg task = Ok r ∧ (0.0 <= confidence_score r <= 1.0)%Q.
Proof.
  intros Hd. destruct (analyze_task_total cfg task d Hd) as [r Hr].
  exists r. split; [done|]. apply analyze_task_inv in Hr as (_ & ? & _). lra.
Qed.

Lemma confidence_in_unit_interval_witness :
  ∃ r, analyze_task Sample.catalogue (TaskStr "   ") = Ok r
       ∧ (0.0 <= confidence_score r <= 1.0)%Q.
Proof.
  apply (confidence_in_unit_interval Sample.catalogue (TaskStr "   ")
           (with_category "engineering" Sample.senior)).
  vm_compute. reflexivity.
Defined.

(** C5. The plan of every task has its steps numbered 1, 2, ..., N without
    gaps; its dependency map sends every step number n > 1 to [[n - 1]] and
    has no entry for step 1 (nor for any number outside 2..N). *)
Theorem plan_steps_and_dependencies (cfg : config) (t : string) (d : agent) :
  get_default_agent cfg = Ok d →
  ∃ p, generate_plan cfg (TaskStr t) = Ok p
       ∧ let N := Z.of_nat (length (sequence p)) in
         step_number <$> sequence p = seqZ 1 N
         ∧ (∀ n, (1 < n <= N)%Z → dependencies p !! n = Some [(n - 1)%Z])
         ∧ dependencies p !! 1%Z = None
         ∧ (∀ n, (n <= 1 ∨ N < n)%Z → dependencies p !! n = None).
Proof.
  intros Hd. destruct (generate_plan_total cfg t d Hd) as [p Hp]. exists p.
  split; [done|].
  apply generate_plan_inv in Hp as (l & sq & _ & Hsq & ->). simpl.
  apply generate_sequence_inv in Hsq as (Hnum & _ & _). simpl in Hnum.
  split; [done|].
  split; [|split]; [intros n Hn | | intros n Hn];
    rewrite map_dependencies_numbered by done.
  - by rewrite bool_decide_eq_true_2.
  - by rewrite bool_decide_eq_false_2 by lia.
  - by rewrite bool_decide_eq_false_2 by lia.
Qed.

Lemma plan_steps_and_dependencies_witness :
  ∃ p, generate_plan Sample.catalogue
         (TaskStr "Build a React frontend and a backend API, then deploy") = Ok p
       ∧ step_number <$> sequence p = [1; 2; 3; 4; 5]%Z
       ∧ dependencies p !! 5%Z = Some [4%Z]
       ∧ dependencies p !! 1%Z = None.
Proof.
  destruct (plan_steps_and_dependencies Sample.catalogue
              "Build a React frontend and a backend API, then deploy"
              (with_category "engineering" Sample.senior))
    as (p & Hp & Hnum & Hdep & Hone & _).
  - vm_compute. reflexivity.
  - exists p. assert (Hlen : length (sequence p) = 5%nat).
    { revert Hp. vm_compute. intros [= <-]. reflexivity. }
    rewrite Hlen in Hnum, Hdep. split; [exact Hp|]. split; [exact Hnum|].
    split; [apply Hdep; lia | exact Hone].
Defined.

(** C6. The handoffs of every plan are, in order, one for each adjacent pair
    of steps whose specialists differ; each goes from the earlier step's
    specialist to the later one's and carries the earlier step's deliverable;
    and both ends of every handoff are named in the plan's specialist
    details. *)
Theorem handoffs_between_specialists (cfg : config) (t : string) (d : agent) :
  get_default_agent cfg = Ok d →
  ∃ p, generate_plan cfg (TaskStr t) = Ok p
       ∧ Forall2 hands_over (handoff_points p) (differing_pairs (sequence p))
       ∧ Forall (λ h, from_agent h ∈ ad_name <$> agents p
                      ∧ to_agent h ∈ ad_name <$> agents p) (handoff_points p).
Proof.
  intros Hd. destruct (generate_plan_total cfg t d Hd) as [p Hp]. exists p.
  split; [done|].
  apply generate_plan_inv in Hp as (l & sq & _ & Hsq & ->). simpl.
  rewrite generate_handoffs_spec. split.
  - unfold handoffs_spec. apply Forall2_fmap_l, Forall_Forall2_diag, Forall_forall.
    by intros [a b] _.
  - apply generate_sequence_inv in Hsq as (_ & _ & Hwho). simpl in Hwho.
    rewrite Forall_forall in Hwho. apply Forall_forall.
    intros h (a & b & [Ha Hb]%adjacent_pairs_elem_of & _ & ->)%handoffs_spec_elem_of.
    rewrite <- list_fmap_compose. simpl. split; by apply Hwho.
Qed.

Lemma handoffs_between_specialists_witness :
  ∃ p, generate_plan Sample.catalogue
         (TaskStr "Build a React frontend and a backend API, then deploy") = Ok p
       ∧ Forall2 hands_over (handoff_points p) (differing_pairs (sequence p))
       ∧ Forall (λ h, from_agent h ∈ ad_name <$> agents p
                      ∧ to_agent h ∈ ad_name <$> agents p) (handoff_points p).
Proof.
  apply (handoffs_between_specialists Sample.catalogue
           "Build a React frontend and a backend API, then deploy"
           (with_category "engineering" Sample.senior)).
  vm_compute. reflexivity.
Defined.

Lemma lstrip_all_space s : Text.all_space s = true → Text.lstrip s = "".
Proof.
  induction s as [|c s IH]; simpl; [done|].
  intros [Hc Hs]%andb_true_iff. rewrite Hc. auto.
Qed.

Lemma strip_blank task : blank task → Text.strip (as_text task) = "".
Proof.
  destruct task as [s|]; simpl; [|done].
  intros Hs. unfold Text.strip. by rewrite lstrip_all_space.
Qed.

(** C7. A task that is empty, made of white space or not a string selects
    the default specialist; and for every task neither [select_agent] nor
    [analyze_task] raises: both return, and [select_agent] returns the
    default specialist when no specialist scores on the task. *)
Theorem matcher_never_raises (cfg : config) (d : agent) :
  get_default_agent cfg = Ok d →
  (∀ task, blank task → select_agent cfg task = Ok d)
  ∧ (∀ task, ∃ a, select_agent cfg task = Ok a)
  ∧ (∀ task, ∃ r, analyze_task cfg task = Ok r)
  ∧ (∀ task,
       scored_candidates cfg (Text.lower (Text.strip (as_text task))) = [] →
       select_agent cfg task = Ok d).
Proof.
  intros Hd. repeat split.
  - intros task Hb. unfold select_agent. cbv zeta. by rewrite strip_blank.
  - intros task. by apply (select_agent_total cfg task d).
  - intros task. by apply (analyze_task_total cfg task d).
  - intros task Hnone. unfold select_agent. cbv zeta.
    destruct (_ || _); [done|].
    rewrite analyze_task_none by done. rewrite Hd. simpl.
    by rewrite primary_agent_cases.
Qed.

Lemma matcher_never_raises_witness :
  let d := with_category "engineering" Sample.senior in
  select_agent Sample.catalogue (TaskStr "   ") = Ok d
  ∧ select_agent Sample.catalogue NotStr = Ok d
  ∧ select_agent Sample.catalogue (TaskStr "?!...") = Ok d
  ∧ ∃ r, analyze_task Sample.catalogue (TaskStr "?!...") = Ok r.
Proof.
  intros d.
  destruct (matcher_never_raises Sample.catalogue d) as (Hblank & _ & Hana & Hnone).
  - vm_compute. reflexivity.
  - split; [apply Hblank; vm_compute; reflexivity|].
    split; [apply Hblank; exact I|].
    split; [apply Hnone; vm_compute; reflexivity|]. apply Hana.
Defined.




(** C9, as stated, fails: the group is a fixed pair of names.  For a
    Frontend Engineer and a Backend Engineer the only group is
    'Frontend Developer' with 'Backend Architect', not the names of the two
    specialists present. *)
Lemma parallel_pair_is_fixed :
  let f := Sample.agent_named "Frontend Engineer" in
  let b := Sample.agent_named "Backend Engineer" in
  contains (name f) "Frontend" = true ∧ contains (name b) "Backend" = true
  ∧ identify_parallel_work [f; b] = [["Frontend Developer"; "Backend Architect"]]
  ∧ [name f; name b] ∉ identify_parallel_work [f; b].
Proof.
  intros f b. repeat split; try reflexivity.
  apply (bool_decide_unpack _). vm_compute. exact I.
Qed.

(** C9, amended.  When a specialist whose name contains "Frontend" and one
    whose name contains "Backend" are involved, the first parallel group is
    the fixed pair 'Frontend Developer', 'Backend Architect'; it is the pair
    of the two specialists' names when they bear exactly these names. *)
Theorem parallel_frontend_backend (l : list agent) (f b : agent) :
  f ∈ l → b ∈ l →
  contains (name f) "Frontend" = true → contains (name b) "Backend" = true →
  head (identify_parallel_work l) = Some ["Frontend Developer"; "Backend Architect"]
  ∧ (name f = "Frontend Developer" → name b = "Backend Architect" →
     [name f; name b] ∈ identify_parallel_work l).
Proof.
  intros Hf Hb Hfn Hbn.
  assert (Hhead : head (identify_parallel_work l)
                  = Some ["Frontend Developer"; "Backend Architect"]).
  { unfold identify_parallel_work. cbv zeta.
    replace (existsb (λ a, contains (name a) "Frontend") l) with true.
    2:{ symmetry. apply existsb_exists. exists f. by rewrite <- list_elem_of_In. }
    replace (existsb (λ a, contains (name a) "Backend") l) with true.
    2:{ symmetry. apply existsb_exists. exists b. by rewrite <- list_elem_of_In. }
    cbn [andb app].
    destruct (3 <=? length l)%nat; [|done]. by destruct (2 <=? _)%nat. }
  split; [done|]. intros -> ->. by apply head_Some_elem_of.
Qed.

Lemma parallel_frontend_backend_witness :
  let f := with_category "engineering" Sample.frontend in
  let b := with_category "engineering" Sample.backend in
  [name f; name b] ∈ identify_parallel_work [b; f].
Proof.
  intros f b.
  apply (parallel_frontend_backend [b; f] f b); try reflexivity.
  - apply (bool_decide_unpack _). vm_compute. exact I.
  - apply (bool_decide_unpack _). vm_compute. exact I.
Defined.

(** C10. When the plan of a task involves exactly one specialist, every step
    of its sequence belongs to that specialist, the testing and deployment
    steps included, and the plan has no handoff. *)
Theorem single_specialist_plan (cfg : config) (t : string) (d : agent) :
  get_default_agent cfg = Ok d →
  ∃ p, generate_plan cfg (TaskStr t) = Ok p
       ∧ (length (agents p) = 1%nat →
          ∃ who, ad_name <$> agents p = [who]
                 ∧ Forall (λ s, step_agent s = who) (sequence p)
                 ∧ handoff_points p = []).
Proof.
  intros Hd. destruct (generate_plan_total cfg t d Hd) as [p Hp]. exists p.
  split; [done|].
  apply generate_plan_inv in Hp as (l & sq & _ & Hsq & ->). simpl.
  rewrite length_fmap. destruct l as [|a [|b l]]; [done| |done]. intros _.
  exists (name a). split; [done|].
  apply generate_sequence_inv in Hsq as (_ & _ & Hwho). simpl in Hwho.
  assert (Hall : Forall (λ s, step_agent s = name a) sq).
  { eapply Forall_impl; [exact Hwho|]. simpl. by intros s ->%list_elem_of_singleton. }
  split; [done|]. rewrite generate_handoffs_spec. by apply (handoffs_same_agent (name a)).
Qed.

Lemma single_specialist_plan_witness :
  ∃ p, generate_plan Sample.catalogue (TaskStr "Build and deploy the code") = Ok p
       ∧ ∃ who, ad_name <$> agents p = [who]
                ∧ Forall (λ s, step_agent s = who) (sequence p)
                ∧ handoff_points p = [].
Proof.
  destruct (single_specialist_plan Sample.catalogue "Build and deploy the code"
              (with_category "engineering" Sample.senior)) as (p & Hp & Hone).
  - vm_compute. reflexivity.
  - exists p. split; [exact Hp|]. apply Hone.
    revert Hp. vm_compute. intros [= <-]. reflexivity.
Defined.

(** * Further properties *)

(** ** The catalogue accessors *)

Lemma get_all_agents_cons c entries (cfg : config) :
  get_all_agents ((c, entries) :: cfg)
  = (with_category c <$> entries) ++ get_all_agents cfg.
Proof. done. Qed.

Lemma find_fmap_with_category c (p : string → bool) entries :
  find (λ a, p (name a)) (with_category c <$> entries)
  = with_category c <$> find (λ e, p (e_name e)) entries.
Proof.
  induction entries as [|e entries IH]; simpl; [done|].
  destruct (p (e_name e)); [done|]. exact IH.
Qed.

Lemma find_app' {A} (f : A → bool) l1 l2 :
  find f (l1 ++ l2) = match find f l1 with Some x => Some x | None => find f l2 end.
Proof. induction l1 as [|x l1 IH]; simpl; [done|]. by destruct (f x). Qed.

Lemma get_agent_by_name_find cfg n :
  get_agent_by_name cfg n
  = find (λ a, String.eqb (name a) n) (get_all_agents cfg).
Proof.
  induction cfg as [|[c entries] cfg IH]; simpl get_agent_by_name; [done|].
  rewrite get_all_agents_cons, find_app'.
  rewrite (find_fmap_with_category c (λ x, String.eqb x n)).
  destruct (find _ entries); simpl; [done|]. exact IH.
Qed.

Lemma unique_by_name (l : list agent) a b :
  NoDup (name <$> l) → a ∈ l → b ∈ l → name a = name b → a = b.
Proof.
  induction l as [|x l IH]; simpl; [by intros _ ?%elem_of_nil|].
  intros [Hx Hl]%NoDup_cons [->|Ha]%elem_of_cons [->|Hb]%elem_of_cons Hn; [done|..].
  - exfalso. apply Hx. rewrite Hn. by apply list_elem_of_fmap_2.
  - exfalso. apply Hx. rewrite <- Hn. by apply list_elem_of_fmap_2.
  - by apply IH.
Qed.

(** X1. Looking an agent up by name returns a catalogue entry bearing that
    name, returns nothing exactly when no entry bears it, and, when names
    are unique, returns each catalogue entry for its own name. *)
Theorem lookup_by_name (cfg : config) (n : string) :
  (∀ a, get_agent_by_name cfg n = Some a → a ∈ get_all_agents cfg ∧ name a = n)
  ∧ (get_agent_by_name cfg n = None ↔ ∀ a, a ∈ get_all_agents cfg → name a ≠ n)
  ∧ (∀ a, NoDup (name <$> get_all_agents cfg) → a ∈ get_all_agents cfg →
          name a = n → get_agent_by_name cfg n = Some a).
Proof.
  rewrite get_agent_by_name_find. split; [|split].
  - intros a [Hin Heq]%find_some. split; [by apply list_elem_of_In|].
    by apply String.eqb_eq.
  - split.
    + intros Hnone a Ha%list_elem_of_In Hn.
      apply (find_none _ _ Hnone) in Ha. apply String.eqb_neq in Ha. done.
    + intros Hall. destruct (find _ _) as [a|] eqn:E; [|done].
      apply find_some in E as [Hin Heq%String.eqb_eq].
      exfalso. by apply (Hall a); [apply list_elem_of_In|].
  - intros a Hnd Ha Hn. destruct (find _ _) as [b|] eqn:E.
    + apply find_some in E as [Hin%list_elem_of_In Heq%String.eqb_eq].
      f_equal. apply (unique_by_name (get_all_agents cfg)); congruence.
    + apply list_elem_of_In in Ha. apply (find_none _ _ E) in Ha.
      apply String.eqb_neq in Ha. done.
Qed.

Lemma lookup_by_name_witness :
  get_agent_by_name Sample.catalogue "UI Designer"
  = Some (with_category "design" Sample.designer).
Proof.
  apply (proj2 (proj2 (lookup_by_name Sample.catalogue "UI Designer"))).
  - apply (bool_decide_unpack _). vm_compute. exact I.
  - apply (bool_decide_unpack _). vm_compute. exact I.
  - reflexivity.
Defined.

Lemma get_agents_by_category_sound cfg c a :
  a ∈ get_agents_by_category cfg c → a ∈ get_all_agents cfg ∧ category a = c.
Proof.
  induction cfg as [|[c' entries] cfg IH]; simpl get_agents_by_category.
  { by intros ?%elem_of_nil. }
  rewrite get_all_agents_cons, elem_of_app.
  destruct (String.eqb_spec c' c) as [->|Hne].
  - intros Ha. split; [by left|].
    by apply list_elem_of_fmap in Ha as (e & -> & _).
  - intros [? ?]%IH. split; [by right | done].
Qed.

(** X2. The agents of a category are catalogue entries of that category;
    when the category keys are distinct they are all of them, and a category
    the catalogue does not have gives the empty list. *)
Theorem agents_by_category (cfg : config) (c : string) :
  (∀ a, a ∈ get_agents_by_category cfg c →
        a ∈ get_all_agents cfg ∧ category a = c)
  ∧ (NoDup cfg.*1 →
     ∀ a, a ∈ get_all_agents cfg → category a = c →
          a ∈ get_agents_by_category cfg c)
  ∧ (c ∉ cfg.*1 → get_agents_by_category cfg c = []).
Proof.
  split; [intros a; apply get_agents_by_category_sound|]. split.
  - induction cfg as [|[c' entries] cfg IH].
    { by intros _ a ?%elem_of_nil. }
    rewrite fmap_cons. simpl fst. simpl get_agents_by_category.
    intros [Hc' Hnd]%NoDup_cons a. rewrite get_all_agents_cons, elem_of_app.
    intros [Ha|Ha] Hcat.
    + apply list_elem_of_fmap in Ha as (e & -> & He). simpl in Hcat. subst c.
      rewrite String.eqb_refl. by apply list_elem_of_fmap_2.
    + destruct (String.eqb_spec c' c) as [->|Hne]; [|by apply IH].
      exfalso. apply Hc'. clear -Ha Hcat.
      induction cfg as [|[k es] cfg IH]; [by apply elem_of_nil in Ha|].
      rewrite get_all_agents_cons, elem_of_app in Ha. rewrite fmap_cons. simpl fst.
      destruct Ha as [H|H].
      * apply list_elem_of_fmap in H as (e & -> & _). simpl in Hcat. subst. left.
      * right. by apply IH.
  - induction cfg as [|[c' entries] cfg IH]; [done|].
    rewrite fmap_cons. simpl fst. simpl get_agents_by_category.
    intros Hnot. apply not_elem_of_cons in Hnot as [Hne Hnot].
    destruct (String.eqb_spec c' c); [congruence | by apply IH].
Qed.

Lemma agents_by_category_witness :
  with_category "design" Sample.designer
    ∈ get_agents_by_category Sample.catalogue "design"
  ∧ get_agents_by_category Sample.catalogue "support" = [].
Proof.
  destruct (agents_by_category Sample.catalogue "design") as (_ & Hall & _).
  destruct (agents_by_category Sample.catalogue "support") as (_ & _ & Hnone).
  split.
  - apply Hall; [apply (bool_decide_unpack _); vm_compute; exact I| |reflexivity].
    apply (bool_decide_unpack _). vm_compute. exact I.
  - apply Hnone. apply (bool_decide_unpack _). vm_compute. exact I.
Defined.

Lemma get_default_agent_elem_of cfg d :
  get_default_agent cfg = Ok d → d ∈ get_all_agents cfg.
Proof.
  unfold get_default_agent. destruct (find _ _) as [a|] eqn:E.
  - intros [= <-]. apply find_some in E as [? _]. by apply list_elem_of_In.
  - destruct (get_agents_by_category cfg "engineering") as [|a l] eqn:Ec; [done|].
    intros [= <-]. apply (get_agents_by_category_sound cfg "engineering").
    rewrite Ec. left.
Qed.

(** X3. The default agent, when there is one, is a catalogue entry: a
    flagged one whenever some entry is flagged, else an engineering entry.
    [IndexError] is raised exactly when no entry is flagged and the
    catalogue has no engineering entry. *)
Theorem default_agent_choice (cfg : config) :
  (∀ d, get_default_agent cfg = Ok d →
        d ∈ get_all_agents cfg
        ∧ (is_default d = true
           ∨ (Forall (λ a, is_default a = false) (get_all_agents cfg)
              ∧ category d = "engineering")))
  ∧ (∀ a, a ∈ get_all_agents cfg → is_default a = true →
          ∃ d, get_default_agent cfg = Ok d ∧ is_default d = true)
  ∧ (get_default_agent cfg = Raise IndexError ↔
     Forall (λ a, is_default a = false) (get_all_agents cfg)
     ∧ get_agents_by_category cfg "engineering" = []).
Proof.
  assert (Hnone : find is_default (get_all_agents cfg) = None →
                  Forall (λ a, is_default a = false) (get_all_agents cfg)).
  { intros E. apply Forall_forall. intros a Ha%list_elem_of_In.
    apply (find_none _ _ E a Ha). }
  split; [|split].
  - intros d Hd. split; [by apply get_default_agent_elem_of|].
    revert Hd. unfold get_default_agent. destruct (find _ _) as [a|] eqn:E.
    + intros [= <-]. left. by apply find_some in E as [_ ?].
    + destruct (get_agents_by_category cfg "engineering") as [|a l] eqn:Ec; [done|].
      intros [= <-]. right. split; [by apply Hnone|].
      apply (get_agents_by_category_sound cfg "engineering"). rewrite Ec. left.
  - intros a Ha Hflag. unfold get_default_agent.
    destruct (find _ _) as [d|] eqn:E.
    + exists d. split; [done|]. by apply find_some in E as [_ ?].
    + apply list_elem_of_In in Ha. rewrite (find_none _ _ E a Ha) in Hflag. done.
  - unfold get_default_agent. destruct (find _ _) as [a|] eqn:E.
    + split; [done|]. intros [Hall _]. apply find_some in E as [Hin%list_elem_of_In Hf].
      rewrite Forall_forall in Hall. rewrite (Hall a Hin) in Hf. done.
    + destruct (get_agents_by_category cfg "engineering"); [|by split; [|intros [_ ?]]].
      split; [|done]. intros _. split; [by apply Hnone | done].
Qed.

Lemma default_agent_choice_witness :
  ∃ d, get_default_agent Sample.catalogue = Ok d ∧ is_default d = true.
Proof.
  apply (proj1 (proj2 (default_agent_choice Sample.catalogue))
           (with_category "engineering" Sample.senior)).
  - apply (bool_decide_unpack _). vm_compute. exact I.
  - reflexivity.
Defined.

(** ** Validation of the catalogue *)

Section ValidationFacts.
Variable path_exists : string → bool.

Let well_formed (a : agent) : Prop :=
  keywords a ≠ [] ∧ path_exists (file_path a) = true.

Lemma validate_agent_none c e :
  validate_agent path_exists e = None ↔ well_formed (with_category c e).
Proof.
  unfold validate_agent, well_formed. simpl.
  destruct (e_keywords e) as [|k ks]; simpl; [split; [done | by intros [? _]]|].
  destruct (path_exists (e_file_path e)); simpl; split; try done.
  by intros [_ ?].
Qed.

Lemma validate_entries_inr c entries (seen seen' : gset string) :
  validate_entries path_exists entries seen = inr seen' ↔
  Forall well_formed (with_category c <$> entries)
  ∧ NoDup (name <$> (with_category c <$> entries))
  ∧ (∀ n, n ∈ name <$> (with_category c <$> entries) → n ∉ seen)
  ∧ seen' = list_to_set (name <$> (with_category c <$> entries)) ∪ seen.
Proof.
  revert seen seen'. induction entries as [|e entries IH]; intros seen seen'.
  - simpl. rewrite (left_id_L ∅ (∪)). split.
    + intros [= <-]. split; [constructor|]. split; [constructor|].
      split; [|done]. by intros n ?%elem_of_nil.
    + by intros (_ & _ & _ & ->).
  - simpl validate_entries. rewrite !fmap_cons. simpl name.
    destruct (validate_agent path_exists e) as [err|] eqn:Ev.
    { split; [done|]. intros (Hwf & _). apply Forall_cons in Hwf as [Hwf _].
      apply (validate_agent_none c) in Hwf. congruence. }
    apply (validate_agent_none c) in Ev. case_bool_decide as Hseen.
    { split; [done|]. intros (_ & _ & Hfresh & _). exfalso.
      by apply (Hfresh (e_name e)); [left|]. }
    rewrite IH, NoDup_cons, Forall_cons, list_to_set_cons.
    rewrite (assoc_L (∪)), (comm_L (∪) (list_to_set _) {[e_name e]}).
    split.
    + intros (Hwf & Hnd & Hfresh & ->). split; [done|]. split; [split; [|done]|].
      * intros Hin. apply (Hfresh _ Hin), elem_of_union. left.
        by apply elem_of_singleton.
      * split; [|done]. intros n [->|Hn]%elem_of_cons; [done|].
        specialize (Hfresh n Hn). apply not_elem_of_union in Hfresh. tauto.
    + intros ((_ & Hwf) & (Hnew & Hnd) & Hfresh & ->).
      split; [done|]. split; [done|]. split; [|done].
      intros n Hn. apply not_elem_of_union. split.
      * apply not_elem_of_singleton. by intros ->.
      * apply Hfresh. by right.
Qed.

Lemma validate_categories_inr (cfg : config) (seen seen' : gset string) :
  validate_categories path_exists cfg seen = inr seen' ↔
  Forall well_formed (get_all_agents cfg)
  ∧ NoDup (name <$> get_all_agents cfg)
  ∧ (∀ n, n ∈ name <$> get_all_agents cfg → n ∉ seen)
  ∧ seen' = list_to_set (name <$> get_all_agents cfg) ∪ seen.
Proof.
  revert seen seen'. induction cfg as [|[c entries] cfg IH]; intros seen seen'.
  - simpl. rewrite (left_id_L ∅ (∪)). split.
    + intros [= <-]. split; [constructor|]. split; [constructor|].
      split; [|done]. by intros n ?%elem_of_nil.
    + by intros (_ & _ & _ & ->).
  - simpl validate_categories. rewrite get_all_agents_cons, fmap_app.
    set (here := with_category c <$> entries).
    rewrite list_to_set_app_L, Forall_app, NoDup_app.
    destruct (validate_entries path_exists entries seen) as [err|mid] eqn:Ee.
    + split; [done|]. intros ((Hwf & _) & (Hnd & _ & _) & Hfresh & _). exfalso.
      assert (validate_entries path_exists entries seen
              = inr (list_to_set (name <$> here) ∪ seen)); [|congruence].
      apply (validate_entries_inr c). split; [done|]. split; [done|].
      split; [|done]. intros n Hn. apply Hfresh, elem_of_app. by left.
    + apply (validate_entries_inr c) in Ee as (Hwf1 & Hnd1 & Hfresh1 & ->).
      fold here in Hwf1, Hnd1, Hfresh1. rewrite IH.
      rewrite (assoc_L (∪)),
        (comm_L (∪) (list_to_set (name <$> get_all_agents cfg)) (list_to_set (name <$> here))).
      split.
      * intros (Hwf & Hnd & Hfresh & ->). split; [done|]. split; [split; [done|split; [|done]]|].
        -- intros n Hn Hn'. apply (Hfresh n Hn'), elem_of_union. left.
           by apply elem_of_list_to_set.
        -- split; [|done]. intros n [Hn|Hn]%elem_of_app; [by apply Hfresh1|].
           specialize (Hfresh n Hn). apply not_elem_of_union in Hfresh. tauto.
      * intros ((_ & Hwf) & (_ & Hdisj & Hnd) & Hfresh & ->).
        split; [done|]. split; [done|]. split; [|done].
        intros n Hn. apply not_elem_of_union. split.
        -- rewrite elem_of_list_to_set. intros Hn'. by apply (Hdisj n).
        -- apply Hfresh, elem_of_app. by right.
Qed.

Lemma validate_config_none (cfg : config) :
  validate_config path_exists cfg = None ↔
  cfg ≠ []
  ∧ Forall (λ a, keywords a ≠ [] ∧ path_exists (file_path a) = true)
      (get_all_agents cfg)
  ∧ NoDup (name <$> get_all_agents cfg).
Proof.
  unfold validate_config. destruct cfg as [|x cfg]; simpl length.
  { split; [done | by intros [? _]]. }
  simpl Nat.eqb. destruct (validate_categories _ _ _) as [err|seen] eqn:E.
  - split; [done|]. intros (_ & Hwf & Hnd). exfalso.
    assert (validate_categories path_exists (x :: cfg) ∅
            = inr (list_to_set (name <$> get_all_agents (x :: cfg)) ∪ ∅)); [|congruence].
    apply validate_categories_inr. split; [done|]. split; [done|]. split; [|done].
    intros n _. apply not_elem_of_empty.
  - apply validate_categories_inr in E as (Hwf & Hnd & _). by split.
Qed.

End ValidationFacts.

(** X4. [_validate_config] accepts a catalogue exactly when it has at least
    one category, every entry has a keyword and an existing profile file,
    and no two entries, of any categories, share a name. *)
Theorem validate_config_accepts (path_exists : string → bool) (cfg : config) :
  validate_config path_exists cfg = None ↔
  cfg ≠ []
  ∧ Forall (λ a, keywords a ≠ [] ∧ path_exists (file_path a) = true)
      (get_all_agents cfg)
  ∧ NoDup (name <$> get_all_agents cfg).
Proof. apply validate_config_none. Qed.

Lemma validate_config_accepts_witness :
  validate_config (λ _, true) Sample.catalogue = None.
Proof.
  apply (validate_config_accepts (λ _, true) Sample.catalogue).
  split; [done|]. split.
  - apply (bool_decide_unpack _). vm_compute. exact I.
  - apply (bool_decide_unpack _). vm_compute. exact I.
Defined.

Lemma size_list_to_set_le (l : list string) :
  (size (list_to_set l : gset string) <= length l)%nat.
Proof.
  induction l as [|x l IH]; [by rewrite list_to_set_nil, size_empty|].
  rewrite list_to_set_cons. simpl length.
  destruct (decide (x ∈ (list_to_set l : gset string))) as [Hin|Hnot].
  - rewrite (subseteq_union_1_L {[x]}) by (by apply singleton_subseteq_l). lia.
  - rewrite size_union by (by apply disjoint_singleton_l).
    rewrite size_singleton. lia.
Qed.

Lemma size_list_to_set_NoDup (l : list string) :
  length l = size (list_to_set l : gset string) ↔ NoDup l.
Proof.
  split; [|intros H; by rewrite size_list_to_set].
  induction l as [|x l IH]; [constructor|].
  rewrite list_to_set_cons. simpl length.
  pose proof (size_list_to_set_le l) as Hle.
  destruct (decide (x ∈ (list_to_set l : gset string))) as [Hin|Hnot].
  - rewrite (subseteq_union_1_L {[x]}) by (by apply singleton_subseteq_l). lia.
  - rewrite size_union by (by apply disjoint_singleton_l).
    rewrite size_singleton. intros Hlen.
    constructor; [by rewrite elem_of_list_to_set in Hnot|]. apply IH. lia.
Qed.

(** X5. [_check_duplicates] raises exactly when two entries of the catalogue
    share a name; it never raises on a catalogue [_validate_config]
    accepts. *)
Theorem check_duplicates_raises (cfg : config) :
  (check_duplicates cfg = true ↔ ¬ NoDup (name <$> get_all_agents cfg))
  ∧ (∀ path_exists, validate_config path_exists cfg = None →
                    check_duplicates cfg = false).
Proof.
  assert (Hiff : check_duplicates cfg = false ↔ NoDup (name <$> get_all_agents cfg)).
  { unfold check_duplicates. cbv zeta.
    rewrite negb_false_iff, Nat.eqb_eq. apply size_list_to_set_NoDup. }
  split.
  - rewrite <- Hiff. by destruct (check_duplicates cfg).
  - intros path_exists (_ & _ & Hnd)%validate_config_none. by apply Hiff.
Qed.

Lemma check_duplicates_raises_witness :
  check_duplicates
    [("engineering", [Sample.senior]); ("support", [Sample.senior])] = true.
Proof.
  apply (proj1 (check_duplicates_raises _)).
  intros Hnd. revert Hnd. apply (bool_decide_unpack _). vm_compute. exact I.
Defined.

(** ** Searching the catalogue *)

Lemma lower_char_idempotent c : Text.lower_char (Text.lower_char c) = Text.lower_char c.
Proof. destruct c as [[] [] [] [] [] [] [] []]; reflexivity. Qed.

Lemma lower_idempotent s : Text.lower (Text.lower s) = Text.lower s.
Proof.
  induction s as [|c s IH]; simpl; [done|]. by rewrite lower_char_idempotent, IH.
Qed.

Lemma contains_empty s : contains s "" = true.
Proof. by destruct s. Qed.

Lemma keyword_hit_exists kl kws :
  keyword_hit kl kws = true ↔ ∃ kw, kw ∈ kws ∧ contains (Text.lower kw) kl = true.
Proof.
  induction kws as [|kw kws IH]; simpl.
  - split; [done | by intros (? & ?%elem_of_nil & _)].
  - destruct (contains (Text.lower kw) kl) eqn:E.
    + split; [|done]. intros _. exists kw. split; [left | done].
    + rewrite IH. split.
      * intros (k & ? & ?). exists k. split; [by right | done].
      * intros (k & [->|?]%elem_of_cons & ?); [congruence | eauto].
Qed.

Lemma search_loop_filter kl l :
  search_loop kl l = filter (λ a, keyword_hit kl (keywords a) = true) l.
Proof.
  induction l as [|a l IH]; simpl; [done|]. rewrite filter_cons, <- IH.
  destruct (keyword_hit kl (keywords a)); [by rewrite decide_True | by rewrite decide_False].
Qed.

(** X6. [search_agents] returns, in catalogue order, exactly the entries one
    of whose keywords contains the needle, both lower-cased; the case of the
    needle does not matter, and the empty needle finds every entry that has
    a keyword. *)
Theorem search_agents_finds (cfg : config) (keyword : string) :
  search_agents cfg keyword
  = filter (λ a, Exists (λ kw, contains (Text.lower kw) (Text.lower keyword) = true)
                   (keywords a))
      (get_all_agents cfg)
  ∧ search_agents cfg (Text.lower keyword) = search_agents cfg keyword
  ∧ search_agents cfg "" = filter (λ a, keywords a ≠ []) (get_all_agents cfg).
Proof.
  unfold search_agents. cbv zeta. rewrite lower_idempotent, !search_loop_filter.
  split; [|split; [done|]].
  - apply list_filter_iff. intros a. by rewrite keyword_hit_exists, Exists_exists.
  - apply list_filter_iff. intros a. rewrite keyword_hit_exists. simpl. split.
    + intros (kw & Hin & _) Hnil. rewrite Hnil in Hin. by apply elem_of_nil in Hin.
    + destruct (keywords a) as [|kw kws]; [done|]. intros _.
      exists kw. split; [left | apply contains_empty].
Qed.

(** ** The router's accessors *)

Lemma rstrip_empty s : Text.rstrip s = "" → Text.all_space s = true.
Proof.
  induction s as [|c s IH]; simpl; [done|].
  destruct (Text.rstrip s) eqn:E; [|done].
  destruct (Text.is_space c); [|done]. intros _. by apply IH.
Qed.

Lemma lstrip_all_space_inv s :
  Text.all_space (Text.lstrip s) = true → Text.all_space s = true.
Proof.
  induction s as [|c s IH]; simpl; [done|].
  destruct (Text.is_space c) eqn:E; [exact IH|]. simpl. by rewrite E.
Qed.

Lemma strip_empty_iff s : Text.strip s = "" ↔ Text.all_space s = true.
Proof.
  split.
  - intros H. by apply lstrip_all_space_inv, rstrip_empty.
  - intros H. unfold Text.strip. by rewrite lstrip_all_space.
Qed.

(** X7. The router refuses to look up a name that is empty or made of white
    space, with a [ValidationError]; every other name is passed to the
    catalogue, so an unknown name is answered with nothing, not with an
    error. *)
Theorem router_lookup_validates (cfg : config) (n : string) :
  (Text.all_space n = true →
   Router.get_agent_by_name cfg n
   = inl (ValidationError "Agent name cannot be empty"))
  ∧ (Text.all_space n = false →
     Router.get_agent_by_name cfg n = inr (get_agent_by_name cfg n)).
Proof.
  unfold Router.get_agent_by_name. split; intros H.
  - apply strip_empty_iff in H. rewrite H. simpl. by rewrite orb_true_r.
  - replace (String.eqb (Text.strip n) "") with false.
    + destruct n; [done|]. done.
    + symmetry. apply String.eqb_neq. intros E%strip_empty_iff. congruence.
Qed.

Lemma router_lookup_validates_witness :
  Router.get_agent_by_name Sample.catalogue "  "
  = inl (ValidationError "Agent name cannot be empty")
  ∧ Router.get_agent_by_name Sample.catalogue "Nobody" = inr None.
Proof.
  split.
  - apply (proj1 (router_lookup_validates Sample.catalogue "  ")). reflexivity.
  - apply (proj2 (router_lookup_validates Sample.catalogue "Nobody")). reflexivity.
Defined.

Lemma available_agents_loop cfg (cats : list string) (m : gmap string (list agent)) c :
  fold_left
    (λ result category,
       match get_agents_by_category cfg category with
       | [] => result
       | _ => <[category := get_agents_by_category cfg category]> result
       end) cats m !! c
  = if bool_decide (c ∈ cats ∧ get_agents_by_category cfg c ≠ [])
    then Some (get_agents_by_category cfg c) else m !! c.
Proof.
  revert m. induction cats as [|k cats IH]; intros m; simpl fold_left.
  - rewrite bool_decide_eq_false_2; [done|]. by intros [?%elem_of_nil _].
  - rewrite IH. case_bool_decide as H1.
    + rewrite bool_decide_eq_true_2; [done|]. destruct H1. split; [by right | done].
    + destruct (get_agents_by_category cfg k) as [|a l] eqn:Ek.
      * rewrite bool_decide_eq_false_2; [done|].
        intros [[->|?]%elem_of_cons Hne]; [congruence | tauto].
      * destruct (decide (k = c)) as [->|Hne].
        -- rewrite lookup_insert_eq, bool_decide_eq_true_2; [by rewrite Ek|].
           split; [left | by rewrite Ek].
        -- rewrite lookup_insert_ne by done.
           rewrite bool_decide_eq_false_2; [done|].
           intros [[?|?]%elem_of_cons ?]; [congruence | tauto].
Qed.

(** X8. [get_available_agents] has an entry for a category exactly when it
    is one of the six known categories and the catalogue has agents in it;
    the entry is the list of those agents.  Agents filed under any other
    category are not available. *)
Theorem available_agents_lookup (cfg : config) (c : string) :
  Router.get_available_agents cfg !! c
  = if bool_decide (c ∈ Router.categories ∧ get_agents_by_category cfg c ≠ [])
    then Some (get_agents_by_category cfg c) else None.
Proof.
  unfold Router.get_available_agents.
  change (fold_left _ Router.categories ∅ !! c)
    with (fold_left
            (λ result category,
               match get_agents_by_category cfg category with
               | [] => result
               | _ => <[category := get_agents_by_category cfg category]> result
               end) Router.categories (∅ : gmap string (list agent)) !! c).
  by rewrite available_agents_loop, lookup_empty.
Qed.

(** ** The router's basic plan *)

Lemma basic_steps_length agents i a :
  (i < length agents)%nat →
  length (Router.basic_steps agents i a)
  = ((if (i =? 0)%nat then 1 else 0) + 2
     + (if (i <? length agents - 1)%nat then 1 else 0))%nat.
Proof.
  intros Hi. unfold Router.basic_steps. rewrite !length_app. simpl length.
  destruct (i =? 0)%nat; destruct (Nat.ltb_spec i (length agents - 1)) as [Hlt|Hge];
    simpl; try lia.
  all: destruct (lookup_lt_is_Some_2 agents (S i) ltac:(lia)) as [b ->]; simpl; lia.
Qed.

Lemma basic_sequence_length agents k l :
  (k + length l = length agents)%nat →
  length (concat (imap (λ i, Router.basic_steps agents (k + i)) l))
  = match l with
    | [] => 0%nat
    | _ => ((if (k =? 0)%nat then 1 else 0) + 3 * length l - 1)%nat
    end.
Proof.
  revert k. induction l as [|a l IH]; intros k Hk; [done|].
  rewrite imap_cons. simpl concat. rewrite length_app.
  rewrite (imap_ext _ (λ i, Router.basic_steps agents (S k + i)))
    by (intros i x _; simpl; f_equal; lia).
  simpl length in Hk. rewrite IH by lia.
  rewrite Nat.add_0_r, basic_steps_length by lia. simpl length.
  destruct l as [|b l]; simpl length; simpl length in Hk.
  - destruct (Nat.ltb_spec k (length agents - 1)); [lia|]. destruct (k =? 0)%nat; lia.
  - destruct (Nat.ltb_spec k (length agents - 1)); [|lia].
    replace (S k =? 0)%nat with false by done. destruct (k =? 0)%nat; lia.
Qed.

Lemma basic_handoffs_cons a b l :
  flat_map (Router.basic_handoff_at (a :: b :: l)) (seq 0 (length (a :: b :: l) - 1))
  = {| Router.bh_from := name a; Router.bh_to := name b;
       Router.bh_deliverables := ["Requirements document"; "Implementation"] |}
    :: flat_map (Router.basic_handoff_at (b :: l)) (seq 0 (length (b :: l) - 1)).
Proof.
  simpl length. replace (S (S (length l)) - 1)%nat with (S (length l)) by lia.
  replace (S (length l) - 1)%nat with (length l) by lia.
  change (seq 0 (S (length l))) with (0%nat :: seq 1 (length l)).
  rewrite <- fmap_S_seq. simpl flat_map. by rewrite flat_map_fmap.
Qed.

(** X9. The basic plan of [n] agents has [3 * n] lines in its sequence and
    one handoff point for each agent but the last, from that agent to the
    next one in the list. *)
Theorem basic_plan_shape (agents : list agent) :
  let bp := Router.basic_plan_of agents in
  length (Router.bp_sequence bp) = (3 * length agents)%nat
  ∧ Router.bh_from <$> Router.bp_handoff_points bp
    = name <$> take (length agents - 1) agents
  ∧ Router.bh_to <$> Router.bp_handoff_points bp = name <$> drop 1 agents.
Proof.
  cbv zeta. unfold Router.basic_plan_of.
  simpl Router.bp_sequence. simpl Router.bp_handoff_points. split; [|split].
  - change (imap (Router.basic_steps agents) agents)
      with (imap (λ i, Router.basic_steps agents (0 + i)) agents).
    rewrite basic_sequence_length by done. destruct agents; simpl; lia.
  - induction agents as [|a [|b l] IH]; [done..|].
    rewrite basic_handoffs_cons, fmap_cons, IH. simpl.
    by rewrite Nat.sub_0_r.
  - induction agents as [|a [|b l] IH]; [done..|].
    rewrite basic_handoffs_cons, fmap_cons, IH. done.
Qed.

Lemma generate_coordination_plan_agents cfg task :
  Router.generate_coordination_plan cfg task
  = (l ← planner_agents cfg task; mret (Router.basic_plan_of l)).
Proof.
  unfold Router.generate_coordination_plan, planner_agents.
  destruct (analyze_task cfg task) as [r|]; [|done]. simpl.
  destruct (is_multi_agent r); [done|]. by destruct (select_agent cfg task).
Qed.

(** X10. With a default agent in the catalogue, [generate_coordination_plan]
    returns a plan for every task, a non-string included; it plans for at
    least one agent, and for a task string these are the agents whose
    details [generate_plan] lists. *)
Theorem basic_plan_agents (cfg : config) (task : task_arg) (d : agent) :
  get_default_agent cfg = Ok d →
  ∃ bp, Router.generate_coordination_plan cfg task = Ok bp
        ∧ Router.bp_agents bp ≠ []
        ∧ ∀ p, generate_plan cfg task = Ok p →
               agents p = agent_details_of <$> Router.bp_agents bp.
Proof.
  intros Hd. rewrite generate_coordination_plan_agents.
  destruct (planner_agents_total cfg task d Hd) as [l Hl]. rewrite Hl. simpl.
  eexists. split; [done|]. simpl. split; [by eapply planner_agents_inv|].
  intros p (l' & sq & Hl' & _ & ->)%generate_plan_inv. simpl. congruence.
Qed.

Lemma basic_plan_agents_witness :
  ∃ bp, Router.generate_coordination_plan Sample.catalogue NotStr = Ok bp
        ∧ Router.bp_agents bp ≠ [].
Proof.
  destruct (basic_plan_agents Sample.catalogue NotStr
              (with_category "engineering" Sample.senior)) as (bp & H1 & H2 & _).
  - vm_compute. reflexivity.
  - by exists bp.
Defined.

(** ** The keyword score, continued *)

Lemma search_from_impl (p q : Re.pat) prev s :
  (∀ prev s, p prev s Re.accept = true → q prev s Re.accept = true) →
  Re.search_from p prev s = true → Re.search_from q prev s = true.
Proof.
  intros Hpq. revert prev. induction s as [|c s IH]; intros prev; simpl.
  - rewrite !orb_false_r. apply Hpq.
  - intros [H|H]%orb_true_iff; apply orb_true_iff; [left; by apply Hpq | right; by apply IH].
Qed.

(** A whole-word match is a substring match. *)
Lemma whole_word_contains s k : whole_word s k = true → contains s k = true.
Proof.
  apply search_from_impl. clear. intros prev s.
  unfold Re.conc, Re.wb, Re.lit. intros [_ H]%andb_true_iff.
  by destruct (Text.strip_prefix k s).
Qed.

Lemma keyword_contribution_zero tl k :
  (keyword_contribution tl k == 0)%Q ↔ contains tl (Text.lower k) = false.
Proof.
  split.
  - intros Hz. destruct (contains tl (Text.lower k)) eqn:E; [|done].
    pose proof (keyword_contribution_found tl k E). lra.
  - intros E. unfold keyword_contribution. cbv zeta. rewrite E.
    destruct (whole_word tl (Text.lower k)) eqn:Ew; [|lra].
    apply whole_word_contains in Ew. congruence.
Qed.

Lemma Qsum_zero l :
  Forall (λ q, (0 <= q)%Q) l → (Qsum l == 0)%Q ↔ Forall (λ q, (q == 0)%Q) l.
Proof.
  induction 1 as [|x l Hx Hl IH]; [by split; [constructor|] |].
  rewrite Qsum_cons, Forall_cons. pose proof (Qsum_nonneg l Hl). split.
  - intros Hz. split; [lra|]. apply IH. lra.
  - intros [Hx0 Hl0%IH]. lra.
Qed.

Lemma calculate_agent_score_spec tl a :
  (calculate_agent_score tl a
   == Qsum (keyword_contribution tl <$> keywords a)
      + (if contains tl (Text.lower (name a)) then 5.0 else 0.0))%Q.
Proof.
  unfold calculate_agent_score. cbv zeta.
  destruct (contains _ _); rewrite keyword_loop_sum; lra.
Qed.

Lemma contributions_nonneg tl kws :
  Forall (λ q, (0 <= q)%Q) (keyword_contribution tl <$> kws).
Proof. apply Forall_fmap, Forall_forall. intros ? _. apply keyword_contribution_nonneg. Qed.

(** X11. A specialist scores zero on a task exactly when none of its
    keywords and not its name occur in the lower-cased task; any other
    score is at least 1.0.  A whole-word match is always also a substring
    match, so the substring branch is a true fallback. *)
Theorem score_zero_iff_nothing_found (tl : string) (a : agent) :
  ((calculate_agent_score tl a == 0)%Q ↔
   Forall (λ kw, contains tl (Text.lower kw) = false) (keywords a)
   ∧ contains tl (Text.lower (name a)) = false)
  ∧ ((calculate_agent_score tl a == 0)%Q ∨ (1 <= calculate_agent_score tl a)%Q)
  ∧ (∀ kw, whole_word tl kw = true → contains tl kw = true).
Proof.
  pose proof (contributions_nonneg tl (keywords a)) as Hnn.
  pose proof (Qsum_nonneg _ Hnn) as Hsum.
  split; [|split; [|apply whole_word_contains]].
  - rewrite calculate_agent_score_spec. split.
    + intros Hz. destruct (contains tl (Text.lower (name a))); [lra|].
      split; [|done]. assert (Hs : (Qsum (keyword_contribution tl <$> keywords a) == 0)%Q) by lra.
      apply Qsum_zero in Hs; [|done]. rewrite Forall_fmap in Hs.
      eapply Forall_impl; [exact Hs|]. intros kw. apply keyword_contribution_zero.
    + intros [Hkw ->].
      assert (Hs : (Qsum (keyword_contribution tl <$> keywords a) == 0)%Q); [|lra].
      apply Qsum_zero; [done|]. rewrite Forall_fmap.
      eapply Forall_impl; [exact Hkw|]. intros kw. apply keyword_contribution_zero.
  - rewrite !calculate_agent_score_spec.
    destruct (contains tl (Text.lower (name a))); [right; lra|].
    destruct (decide (Forall (λ kw, contains tl (Text.lower kw) = false) (keywords a)))
      as [Hall|Hex].
    + left. assert (Hs : (Qsum (keyword_contribution tl <$> keywords a) == 0)%Q); [|lra].
      apply Qsum_zero; [done|]. rewrite Forall_fmap.
      eapply Forall_impl; [exact Hall|]. intros kw. apply keyword_contribution_zero.
    + right. apply not_Forall_Exists in Hex; [|apply _].
      apply Exists_exists in Hex as (kw & Hin & Hfound).
      apply not_false_is_true in Hfound.
      assert (1 <= Qsum (keyword_contribution tl <$> keywords a))%Q; [|lra].
      eapply Qle_trans; [by apply keyword_contribution_found|].
      apply Qsum_elem_of; [done | by apply list_elem_of_fmap_2].
Qed.

Lemma score_zero_iff_nothing_found_witness :
  (calculate_agent_score "fix the login bug"
     (with_category "design" Sample.designer) == 0)%Q.
Proof.
  apply (proj1 (score_zero_iff_nothing_found "fix the login bug"
                  (with_category "design" Sample.designer))).
  split; [|reflexivity].
  apply (bool_decide_unpack _). vm_compute. exact I.
Defined.

(** ** The analysis, continued *)

Lemma add_pattern_agent_head patterns a l sa :
  ∃ l', add_pattern_agent patterns (a :: l) sa = a :: l'.
Proof.
  unfold add_pattern_agent. cbv zeta. destruct (_ && _); [|eauto].
  destruct (negb _); [|eauto]. simpl. eauto.
Qed.

Lemma add_pattern_loop_head patterns scores a l :
  ∃ l', fold_left (add_pattern_agent patterns) scores (a :: l) = a :: l'.
Proof.
  revert l. induction scores as [|sa scores IH]; intros l; simpl; [eauto|].
  destruct (add_pattern_agent_head patterns a l sa) as [l' ->]. apply IH.
Qed.

Lemma similar_agents_head patterns top rest :
  (0 <= sc_score top)%Q →
  ∃ l, similar_agents patterns (top :: rest) (sc_score top) = sc_agent top :: l.
Proof.
  intros Hpos. unfold similar_agents. cbv zeta. rewrite filter_cons.
  rewrite decide_True; [|apply Is_true_true, Qle_bool_iff; lra].
  rewrite fmap_cons. apply add_pattern_loop_head.
Qed.

Lemma multi_decision_head patterns top l :
  head (multi_decision patterns top (sc_agent top :: l)).2 = Some (sc_agent top).
Proof.
  unfold multi_decision. cbv zeta. destruct (1 <? _)%nat; [|done]. by destruct (_ || _).
Qed.

Lemma multi_decision_sizes patterns top similar :
  let d := multi_decision patterns top similar in
  (length d.2 <= 5)%nat ∧ (d.1 = false → length d.2 = 1%nat).
Proof.
  unfold multi_decision. cbv zeta. destruct (1 <? _)%nat; [|simpl; split; [lia|done]].
  destruct (_ || _); simpl; [|split; [lia|done]].
  rewrite length_take. split; [lia|done].
Qed.

(** The non-fallback branches: the best candidate leads. *)
Lemma analyze_task_top cfg task top rest :
  scored_candidates cfg (Text.lower (as_text task)) = top :: rest →
  (2 <= sc_score top)%Q →
  ∃ r, analyze_task cfg task = Ok r
       ∧ head (required_agents r) = Some (sc_agent top)
       ∧ confidence_score r = Qmin (0.3 + sc_score top * 0.1)%Q 1.0%Q.
Proof.
  intros E Hge. destruct rest as [|x rest].
  - rewrite (analyze_task_one _ _ _ E Hge). eexists. split; [done|]. done.
  - rewrite (analyze_task_many _ _ _ _ _ E Hge). eexists. split; [done|]. simpl.
    split; [|done].
    destruct (similar_agents_head (detect_multi_agent_patterns (Text.lower (as_text task)))
                top (x :: rest)) as [l ->]; [lra|].
    apply multi_decision_head.
Qed.

Lemma scored_candidates_head_max cfg tl top rest c :
  scored_candidates cfg tl = top :: rest → c ∈ scored_candidates cfg tl →
  (sc_score c <= sc_score top)%Q.
Proof.
  unfold scored_candidates. intros E Hc.
  pose proof (sort_desc_head_max _ _ _ E) as Hmax. rewrite Forall_forall in Hmax.
  apply Hmax. by apply elem_of_sort_desc.
Qed.

(** X12. When the best candidate scores at least 2.0, the analysis leads
    with it: it is the first required specialist, whether the analysis is
    multi-specialist or not, no candidate scores higher, and the confidence
    is [min(0.3 + score * 0.1, 1.0)]. *)
Theorem best_candidate_leads (cfg : config) (task : task_arg) (top : scored)
    (rest : list scored) :
  scored_candidates cfg (Text.lower (as_text task)) = top :: rest →
  (2.0 <= sc_score top)%Q →
  ∃ r, analyze_task cfg task = Ok r
       ∧ head (required_agents r) = Some (sc_agent top)
       ∧ confidence_score r = Qmin (0.3 + sc_score top * 0.1)%Q 1.0%Q
       ∧ Forall (λ c, (sc_score c <= sc_score top)%Q) (top :: rest).
Proof.
  intros E Hge. destruct (analyze_task_top cfg task top rest E) as (r & Hr & Hh & Hc); [lra|].
  exists r. split; [done|]. split; [done|]. split; [done|].
  apply Forall_forall. intros c Hc'.
  apply (scored_candidates_head_max cfg (Text.lower (as_text task)) top rest); [done|].
  by rewrite E.
Qed.

Lemma best_candidate_leads_witness :
  ∃ r, analyze_task Sample.catalogue (TaskStr "Write code for the backend") = Ok r
       ∧ head (required_agents r) = Some (with_category "engineering" Sample.backend).
Proof.
  destruct (best_candidate_leads Sample.catalogue (TaskStr "Write code for the backend")
              {| sc_agent := with_category "engineering" Sample.backend;
                 sc_score := 2.000%Q |}
              [{| sc_agent := with_category "engineering" Sample.senior;
                  sc_score := 2.000%Q |}])
    as (r & Hr & Hhead & _).
  - vm_compute. reflexivity.
  - vm_compute. discriminate.
  - exists r. split; [exact Hr | exact Hhead].
Defined.

(** The four ways [analyze_task] answers. *)
Lemma analyze_task_cases cfg task r :
  analyze_task cfg task = Ok r →
  let tl := Text.lower (as_text task) in
  let patterns := detect_multi_agent_patterns tl in
  let candidates := scored_candidates cfg tl in
  (∃ d, get_default_agent cfg = Ok d
        ∧ is_multi_agent r = false ∧ required_agents r = [d]
        ∧ ((candidates = [] ∧ confidence_score r = 0.0%Q)
           ∨ ∃ top rest, candidates = top :: rest
               ∧ (0 < sc_score top < 2)%Q
               ∧ confidence_score r = Qmin (0.1 + sc_score top * 0.05)%Q 0.3%Q))
  ∨ (∃ top rest, candidates = top :: rest ∧ (2 <= sc_score top)%Q
        ∧ confidence_score r = Qmin (0.3 + sc_score top * 0.1)%Q 1.0%Q
        ∧ ((rest = [] ∧ is_multi_agent r = false
            ∧ required_agents r = [sc_agent top])
           ∨ (rest ≠ []
              ∧ let d := multi_decision patterns top
                           (similar_agents patterns candidates (sc_score top)) in
                is_multi_agent r = d.1 ∧ required_agents r = d.2))).
Proof.
  intros Hr tl patterns candidates. subst candidates.
  destruct (scored_candidates cfg tl) as [|top rest] eqn:E.
  - rewrite analyze_task_none in Hr by done.
    destruct (get_default_agent cfg) as [d|]; [|done]. injection Hr as <-.
    left. exists d. split; [done|]. split; [done|]. split; [done|]. by left.
  - assert (Hpos : (0 < sc_score top)%Q).
    { apply (scored_candidates_positive cfg tl). fold tl in E. rewrite E. left. }
    destruct (Qlt_le_dec (sc_score top) 2) as [Hlt|Hge].
    + rewrite (analyze_task_low _ _ _ _ E Hlt) in Hr.
      destruct (get_default_agent cfg) as [d|]; [|done]. injection Hr as <-.
      left. exists d. split; [done|]. split; [done|]. split; [done|]. right.
      exists top, rest. split; [done|]. split; [lra | done].
    + right. exists top, rest. split; [done|]. split; [done|].
      destruct rest as [|x rest].
      * rewrite (analyze_task_one _ _ _ E Hge) in Hr. injection Hr as <-.
        split; [done|]. by left.
      * rewrite (analyze_task_many _ _ _ _ _ E Hge) in Hr. injection Hr as <-.
        split; [done|]. right. split; [done|]. by split.
Qed.

(** X13. A catalogue agent whose lower-cased name occurs in the task scores
    at least 5.0; the analysis then does not fall back to the default: it
    leads with a best candidate scoring at least 5.0 and its confidence is
    at least 0.8. *)
Theorem name_in_task (cfg : config) (t : string) (a : agent) :
  a ∈ get_all_agents cfg →
  contains (Text.lower t) (Text.lower (name a)) = true →
  (5 <= calculate_agent_score (Text.lower t) a)%Q
  ∧ ∃ r top, analyze_task cfg (TaskStr t) = Ok r
             ∧ head (scored_candidates cfg (Text.lower t)) = Some top
             ∧ (5 <= sc_score top)%Q
             ∧ head (required_agents r) = Some (sc_agent top)
             ∧ (0.8 <= confidence_score r)%Q.
Proof.
  intros Ha Hname. set (tl := Text.lower t).
  set (patterns := detect_multi_agent_patterns tl).
  assert (Hcalc : (5 <= calculate_agent_score tl a)%Q).
  { rewrite calculate_agent_score_spec. fold tl in Hname. rewrite Hname.
    pose proof (Qsum_nonneg _ (contributions_nonneg tl (keywords a))). lra. }
  split; [done|].
  assert (Hscore : (5 <= agent_score tl patterns a)%Q).
  { unfold agent_score. cbv zeta. destruct (bool_decide _); lra. }
  assert (Hin : {| sc_agent := a; sc_score := agent_score tl patterns a |}
                  ∈ scored_candidates cfg tl).
  { apply scored_candidates_elem_of. exists a. split; [done|]. split; [|done].
    fold patterns. lra. }
  destruct (scored_candidates cfg tl) as [|top rest] eqn:E; [by apply elem_of_nil in Hin|].
  assert (Htop : (5 <= sc_score top)%Q).
  { pose proof (scored_candidates_head_max cfg tl top rest
                  {| sc_agent := a; sc_score := agent_score tl patterns a |} E) as Hmax.
    rewrite E in Hmax. specialize (Hmax Hin). simpl in Hmax. lra. }
  destruct (analyze_task_top cfg (TaskStr t) top rest E) as (r & Hr & Hhead & Hconf); [lra|].
  exists r, top. split; [done|]. split; [done|]. split; [done|]. split; [done|].
  rewrite Hconf.
  destruct (Qmin_cases (0.3 + sc_score top * 0.1) 1.0) as [[? ->]|[? ->]]; lra.
Qed.

Lemma name_in_task_witness :
  (5 <= calculate_agent_score (Text.lower "Ask the UI Designer")
          (with_category "design" Sample.designer))%Q.
Proof.
  apply (name_in_task Sample.catalogue "Ask the UI Designer").
  - apply (bool_decide_unpack _). vm_compute. exact I.
  - vm_compute. reflexivity.
Defined.

(** X14. The confidence tells the fallback apart: it is at most 0.3 when the
    analysis falls back to the default agent and at least 0.5 otherwise, so
    it never lies strictly between 0.3 and 0.5; it is at least 0.5 exactly
    when the best candidate scores at least 2.0. *)
Theorem confidence_gap (cfg : config) (task : task_arg) (r : analysis) :
  analyze_task cfg task = Ok r →
  ((confidence_score r <= 0.3)%Q ∨ (0.5 <= confidence_score r)%Q)
  ∧ ((0.5 <= confidence_score r)%Q ↔
     ∃ top rest, scored_candidates cfg (Text.lower (as_text task)) = top :: rest
                 ∧ (2.0 <= sc_score top)%Q).
Proof.
  intros Hr. apply analyze_task_cases in Hr. cbv zeta in Hr.
  destruct Hr as [(d & _ & _ & _ & [[E Hc]|(top & rest & E & Hs & Hc)])
                 |(top & rest & E & Hs & Hc & _)].
  - rewrite Hc, E. split; [left; lra|]. split; [lra|]. by intros (? & ? & ? & _).
  - rewrite Hc, E.
    assert (Qmin (0.1 + sc_score top * 0.05) 0.3 <= 0.3)%Q.
    { destruct (Qmin_cases (0.1 + sc_score top * 0.05) 0.3) as [[? ->]|[? ->]]; lra. }
    split; [by left|]. split; [lra|]. intros (? & ? & [= <- _] & ?). lra.
  - rewrite Hc, E.
    assert (0.5 <= Qmin (0.3 + sc_score top * 0.1) 1.0)%Q.
    { destruct (Qmin_cases (0.3 + sc_score top * 0.1) 1.0) as [[? ->]|[? ->]]; lra. }
    split; [by right|]. split; [|done]. intros _. exists top, rest. split; [done | lra].
Qed.

Lemma confidence_gap_witness :
  ∃ r, analyze_task Sample.catalogue (TaskStr "Decode it") = Ok r
       ∧ (confidence_score r <= 0.3)%Q.
Proof.
  eexists. split; [vm_compute; reflexivity|].
  match goal with |- (confidence_score ?r <= _)%Q =>
    destruct (proj1 (confidence_gap Sample.catalogue (TaskStr "Decode it") r eq_refl))
      as [H|H]
  end.
  - exact H.
  - exfalso. revert H. vm_compute. intros H. apply H. reflexivity.
Defined.

Lemma analyze_task_sizes (cfg : config) (task : task_arg) (r : analysis) :
  analyze_task cfg task = Ok r →
  (1 <= length (required_agents r) <= 5)%nat
  ∧ (is_multi_agent r = false → length (required_agents r) = 1%nat)
  ∧ (is_multi_agent r = true → (2 <= length (required_agents r))%nat).
Proof.
  intros Hr. pose proof (analyze_task_inv _ _ _ Hr) as (Hne & _ & Hmulti).
  apply analyze_task_cases in Hr. cbv zeta in Hr.
  destruct Hr as [(d & _ & Hm & -> & _)
                 |(top & rest & _ & _ & _ & [(_ & Hm & ->)|(_ & Hm & Hreq)])];
    simpl; try (split; [lia|]; split; [done|]; by rewrite Hm).
  rewrite Hreq in *. rewrite Hm in *.
  match goal with |- context [multi_decision ?p ?t ?s] =>
    destruct (multi_decision_sizes p t s) as [H5 H1] end.
  split; [|split; [done|done]].
  destruct (length (multi_decision _ _ _).2) eqn:El; [|lia].
  apply nil_length_inv in El. done.
Qed.

(** X15. An analysis requires between one and five agents: exactly one when
    it is not multi-agent, at least two when it is. *)
Theorem required_agents_count (cfg : config) (task : task_arg) (r : analysis) :
  analyze_task cfg task = Ok r →
  (1 <= length (required_agents r) <= 5)%nat
  ∧ (is_multi_agent r = false → length (required_agents r) = 1%nat)
  ∧ (is_multi_agent r = true → (2 <= length (required_agents r))%nat).
Proof. apply analyze_task_sizes. Qed.

Lemma required_agents_count_witness :
  ∃ r, analyze_task Sample.crowded (TaskStr Sample.crowded_task) = Ok r
       ∧ (2 <= length (required_agents r) <= 5)%nat.
Proof.
  eexists. split; [vm_compute; reflexivity|].
  match goal with |- (_ <= length (required_agents ?r) <= _)%nat =>
    destruct (required_agents_count Sample.crowded (TaskStr Sample.crowded_task) r)
      as ([_ H5] & _ & H2)
  end.
  - vm_compute. reflexivity.
  - split; [apply H2; reflexivity | exact H5].
Defined.

Lemma add_pattern_loop_subset patterns scores similar a :
  a ∈ fold_left (add_pattern_agent patterns) scores similar →
  a ∈ similar ∨ a ∈ sc_agent <$> scores.
Proof.
  revert similar. induction scores as [|sa scores IH]; intros similar; simpl; [by left|].
  intros [H|H]%IH; [|right; by right].
  unfold add_pattern_agent in H. cbv zeta in H.
  destruct (_ && _); [|by left]. destruct (negb _); [|by left].
  apply elem_of_app in H as [H|H%list_elem_of_singleton]; [by left|].
  right. subst. left.
Qed.

Lemma similar_agents_subset patterns scores top_score a :
  a ∈ similar_agents patterns scores top_score → a ∈ sc_agent <$> scores.
Proof.
  unfold similar_agents. cbv zeta. intros [H|H]%add_pattern_loop_subset; [|done].
  apply list_elem_of_fmap in H as (sa & -> & [_ Hin]%list_elem_of_filter).
  by apply list_elem_of_fmap_2.
Qed.

Lemma multi_decision_subset patterns top similar a :
  a ∈ (multi_decision patterns top similar).2 → a = sc_agent top ∨ a ∈ similar.
Proof.
  unfold multi_decision. cbv zeta.
  destruct (1 <? _)%nat; [|intros ->%list_elem_of_singleton; by left].
  destruct (_ || _); [|intros ->%list_elem_of_singleton; by left].
  simpl. intros H. right. eapply elem_of_sublist; [exact H | apply sublist_take].
Qed.

Lemma scored_candidates_agents cfg tl a :
  a ∈ sc_agent <$> scored_candidates cfg tl → a ∈ get_all_agents cfg.
Proof.
  intros (sa & -> & (b & Hb & _ & ->)%scored_candidates_elem_of)%list_elem_of_fmap.
  done.
Qed.

Lemma analyze_task_required_elem_of cfg task r :
  analyze_task cfg task = Ok r →
  Forall (λ a, a ∈ get_all_agents cfg) (required_agents r).
Proof.
  intros Hr. apply analyze_task_cases in Hr. cbv zeta in Hr.
  destruct Hr as [(d & Hd & _ & -> & _)
                 |(top & rest & E & _ & _ & [(_ & _ & ->)|(_ & _ & ->)])].
  - constructor; [|constructor]. by apply get_default_agent_elem_of.
  - constructor; [|constructor]. apply (scored_candidates_agents cfg (Text.lower (as_text task))).
    rewrite E. left.
  - apply Forall_forall. intros a [->|Ha]%multi_decision_subset.
    + apply (scored_candidates_agents cfg (Text.lower (as_text task))). rewrite E. left.
    + by apply similar_agents_subset, scored_candidates_agents in Ha.
Qed.

(** X16. Every agent an analysis requires is an entry of the catalogue. *)
Theorem required_agents_in_catalogue (cfg : config) (task : task_arg) (r : analysis) :
  analyze_task cfg task = Ok r →
  Forall (λ a, a ∈ get_all_agents cfg) (required_agents r).
Proof. apply analyze_task_required_elem_of. Qed.

Lemma required_agents_in_catalogue_witness :
  ∃ r, analyze_task Sample.catalogue (TaskStr "Frontend and backend work") = Ok r
       ∧ Forall (λ a, a ∈ get_all_agents Sample.catalogue) (required_agents r).
Proof.
  eexists. split; [vm_compute; reflexivity|].
  apply (required_agents_in_catalogue Sample.catalogue
           (TaskStr "Frontend and backend work")).
  vm_compute. reflexivity.
Defined.

Lemma score_agents_filter tl patterns l :
  sc_agent <$> score_agents tl patterns l
  = filter (λ a, Qltb 0.0 (agent_score tl patterns a) = true) l.
Proof.
  induction l as [|a l IH]; [done|]. simpl score_agents. rewrite filter_cons.
  destruct (Qltb 0.0 _).
  - rewrite decide_True by done. rewrite fmap_cons. simpl sc_agent. by rewrite IH.
  - rewrite decide_False by done. exact IH.
Qed.

Lemma insert_desc_Permutation x l : insert_desc x l ≡ₚ x :: l.
Proof.
  induction l as [|y l IH]; simpl; [done|].
  destruct (Qltb _ _); [|done]. rewrite IH. apply Permutation_swap.
Qed.

Lemma sort_desc_Permutation l : sort_desc l ≡ₚ l.
Proof.
  induction l as [|x l IH]; simpl; [done|]. by rewrite insert_desc_Permutation, IH.
Qed.

Lemma scored_candidates_NoDup cfg tl :
  NoDup (get_all_agents cfg) → NoDup (sc_agent <$> scored_candidates cfg tl).
Proof.
  intros Hnd. unfold scored_candidates.
  rewrite sort_desc_Permutation, score_agents_filter. by apply NoDup_filter.
Qed.

Lemma add_pattern_loop_NoDup patterns scores similar :
  NoDup similar → NoDup (fold_left (add_pattern_agent patterns) scores similar).
Proof.
  revert similar. induction scores as [|sa scores IH]; intros similar Hnd; simpl; [done|].
  apply IH. unfold add_pattern_agent. cbv zeta.
  destruct (_ && _); [|done]. case_bool_decide as Hin; simpl; [done|].
  apply NoDup_app. split; [done|]. split; [|apply NoDup_singleton].
  intros x Hx ->%list_elem_of_singleton. done.
Qed.

Lemma similar_agents_NoDup patterns scores top_score :
  NoDup (sc_agent <$> scores) → NoDup (similar_agents patterns scores top_score).
Proof.
  intros Hnd. unfold similar_agents. cbv zeta. apply add_pattern_loop_NoDup.
  eapply sublist_NoDup; [exact Hnd|]. apply fmap_sublist, sublist_filter.
Qed.

Lemma multi_decision_NoDup patterns top similar :
  NoDup similar → NoDup (multi_decision patterns top similar).2.
Proof.
  intros Hnd. unfold multi_decision. cbv zeta.
  destruct (1 <? _)%nat; [|apply NoDup_singleton].
  destruct (_ || _); [|apply NoDup_singleton].
  simpl. eapply sublist_NoDup; [exact Hnd | apply sublist_take].
Qed.

(** X17. When the names of the catalogue are unique, no agent, and no name,
    is required twice by an analysis. *)
Theorem required_agents_distinct (cfg : config) (task : task_arg) (r : analysis) :
  NoDup (name <$> get_all_agents cfg) →
  analyze_task cfg task = Ok r →
  NoDup (required_agents r) ∧ NoDup (name <$> required_agents r).
Proof.
  intros Hnames Hr.
  pose proof (analyze_task_required_elem_of _ _ _ Hr) as Hall.
  rewrite Forall_forall in Hall.
  assert (Hnd : NoDup (required_agents r)).
  { apply analyze_task_cases in Hr. cbv zeta in Hr.
    destruct Hr as [(d & _ & _ & -> & _)
                   |(top & rest & E & _ & _ & [(_ & _ & ->)|(_ & _ & ->)])];
      [apply NoDup_singleton..|].
    apply multi_decision_NoDup, similar_agents_NoDup, scored_candidates_NoDup.
    by apply NoDup_fmap_1 in Hnames. }
  split; [done|]. apply NoDup_fmap_2_strong; [|done].
  intros a b Ha Hb. apply (unique_by_name (get_all_agents cfg)); auto.
Qed.

Lemma required_agents_distinct_witness :
  ∃ r, analyze_task Sample.crowded (TaskStr Sample.crowded_task) = Ok r
       ∧ NoDup (name <$> required_agents r).
Proof.
  eexists. split; [vm_compute; reflexivity|].
  apply (required_agents_distinct Sample.crowded (TaskStr Sample.crowded_task)).
  - apply (bool_decide_unpack _). vm_compute. exact I.
  - vm_compute. reflexivity.
Defined.

(** ** The pattern detectors, continued *)

Section PatternSources.
Variable tl : string.

Lemma full_stack_rule_adds ra x :
  x ∈ full_stack_rule tl ra → x ∈ ra ∨ x ∈ ["Frontend Developer"; "Backend Architect"].
Proof.
  unfold full_stack_rule. destruct (_ || _); [|by left].
  intros [?|?]%elem_of_app; auto.
Qed.

Lemma design_build_rule_adds ra x :
  x ∈ design_build_rule tl ra → x ∈ ra ∨ x ∈ ["UI Designer"; "Frontend Developer"].
Proof.
  unfold design_build_rule. destruct (_ || _); [|by left].
  intros [?|?]%elem_of_app; auto.
Qed.

Lemma frontend_backend_rule_adds ra x :
  x ∈ frontend_backend_rule tl ra →
  x ∈ ra ∨ x ∈ ["Frontend Developer"; "Backend Architect"].
Proof.
  unfold frontend_backend_rule. destruct (_ && _); [intros [?|?]%elem_of_app; auto|].
  destruct (_ && _); [|by left]. intros [?|?]%elem_of_app; auto.
Qed.

Lemma build_test_rule_adds ra x :
  x ∈ build_test_rule tl ra →
  x ∈ ra ∨ (mentions_build_and_test tl = true
            ∧ x ∈ ["Reality Checker"; "Backend Architect"; "Frontend Developer"]).
Proof.
  unfold build_test_rule, mentions_build_and_test. cbv zeta.
  destruct (_ && _); [|by left].
  destruct (_ || _); [|destruct (_ || _)]; try destruct (negb _);
    rewrite ?elem_of_app, ?list_elem_of_singleton;
    intros H; decompose [or] H; subst; auto;
    right; (split; [done|]); repeat constructor.
Qed.

Lemma build_test_rule_checker ra :
  mentions_build_and_test tl = true → "Reality Checker" ∈ build_test_rule tl ra.
Proof.
  unfold build_test_rule, mentions_build_and_test. cbv zeta. intros ->.
  destruct (_ || _); [|destruct (_ || _)]; try destruct (negb _);
    rewrite ?elem_of_app, ?list_elem_of_singleton; auto.
Qed.

Lemma deploy_rule_adds ra x :
  x ∈ deploy_rule tl ra → x ∈ ra ∨ (mentions_deploy tl = true ∧ x = "DevOps Engineer").
Proof.
  unfold deploy_rule, mentions_deploy. destruct (_ || _); [|by left].
  intros [?| ->%list_elem_of_singleton]%elem_of_app; auto.
Qed.

Lemma deploy_rule_hits ra :
  mentions_deploy tl = true → "DevOps Engineer" ∈ deploy_rule tl ra.
Proof.
  unfold deploy_rule, mentions_deploy. intros ->. apply elem_of_app. right. left.
Qed.

Lemma design_rule_adds ra x : x ∈ design_rule tl ra → x ∈ ra ∨ x = "UI Designer".
Proof.
  unfold design_rule. destruct (Re.search _ _); [|by left].
  destruct (negb _); [|by left]. destruct (negb _); [|by left].
  intros [?| ->%list_elem_of_singleton]%elem_of_app; auto.
Qed.

Lemma dashboard_rule_adds ra x :
  x ∈ dashboard_rule tl ra → x ∈ ra ∨ x ∈ ["UI Designer"; "Frontend Developer"].
Proof.
  unfold dashboard_rule. cbv zeta. destruct (contains _ _); [|by left].
  destruct (negb (has "UI Designer" ra)); destruct (negb _);
    rewrite ?elem_of_app, ?list_elem_of_singleton;
    intros H; decompose [or] H; subst; auto; right; repeat constructor.
Qed.

Lemma dashboard_rule_hits ra :
  contains tl "dashboard" = true →
  "UI Designer" ∈ dashboard_rule tl ra ∧ "Frontend Developer" ∈ dashboard_rule tl ra.
Proof.
  unfold dashboard_rule, has. cbv zeta. intros ->.
  destruct (bool_decide ("UI Designer" ∈ ra)) eqn:E1; simpl.
  - apply bool_decide_eq_true in E1.
    destruct (bool_decide ("Frontend Developer" ∈ ra)) eqn:E2; simpl.
    + apply bool_decide_eq_true in E2. done.
    + split; apply elem_of_app; [by left | right; left].
  - destruct (bool_decide ("Frontend Developer" ∈ ra ++ ["UI Designer"])) eqn:E2; simpl.
    + apply bool_decide_eq_true in E2. split; [|done]. apply elem_of_app. right. left.
    + split; rewrite !elem_of_app, !list_elem_of_singleton; auto.
Qed.

Lemma full_stack_rule_hits ra :
  contains tl "full-stack" || contains tl "fullstack" = true →
  "Frontend Developer" ∈ full_stack_rule tl ra
  ∧ "Backend Architect" ∈ full_stack_rule tl ra.
Proof.
  unfold full_stack_rule. intros ->.
  split; apply elem_of_app; right; repeat constructor.
Qed.

Lemma pattern_hits_sources x :
  x ∈ pattern_hits tl →
  x ∈ pattern_names
  ∧ (x = "DevOps Engineer" → mentions_deploy tl = true)
  ∧ (x = "Reality Checker" → mentions_build_and_test tl = true).
Proof.
  assert (Hknown : ∀ l : list string,
            x ∈ l →
            Forall (λ y, y ∈ pattern_names ∧ y ≠ "DevOps Engineer"
                         ∧ y ≠ "Reality Checker") l →
            x ∈ pattern_names
            ∧ (x = "DevOps Engineer" → mentions_deploy tl = true)
            ∧ (x = "Reality Checker" → mentions_build_and_test tl = true)).
  { intros l Hx Hl. rewrite Forall_forall in Hl. destruct (Hl x Hx) as (? & ? & ?).
    split; [done|]. split; intros; done. }
  assert (Hfd : "Frontend Developer" ∈ pattern_names) by (apply (bool_decide_unpack _); by vm_compute).
  assert (Hba : "Backend Architect" ∈ pattern_names) by (apply (bool_decide_unpack _); by vm_compute).
  assert (Hui : "UI Designer" ∈ pattern_names) by (apply (bool_decide_unpack _); by vm_compute).
  assert (Hrc : "Reality Checker" ∈ pattern_names) by (apply (bool_decide_unpack _); by vm_compute).
  assert (Hdo : "DevOps Engineer" ∈ pattern_names) by (apply (bool_decide_unpack _); by vm_compute).
  unfold pattern_hits. cbv zeta.
  intros H. apply dashboard_rule_adds in H as [H|H].
  2:{ apply (Hknown _ H). by repeat constructor. }
  apply design_rule_adds in H as [H|Hx].
  2:{ subst x. split; [done|]. by split. }
  apply deploy_rule_adds in H as [H|[Hc Hx]].
  2:{ subst x. split; [done|]. by split. }
  apply build_test_rule_adds in H as [H|[Hc H]].
  2:{ apply elem_of_cons in H as [Hx|H]; [subst x; split; [done|]; by split|].
      apply (Hknown _ H). by repeat constructor. }
  apply frontend_backend_rule_adds in H as [H|H].
  2:{ apply (Hknown _ H). by repeat constructor. }
  apply design_build_rule_adds in H as [H|H].
  2:{ apply (Hknown _ H). by repeat constructor. }
  apply full_stack_rule_adds in H as [H|H]; [by apply elem_of_nil in H|].
  apply (Hknown _ H). by repeat constructor.
Qed.

End PatternSources.

Lemma strip_prefix_app k1 k2 s r :
  Text.strip_prefix (k1 +:+ k2) s = Some r → ∃ r', Text.strip_prefix k1 s = Some r'.
Proof.
  revert s. induction k1 as [|c k1 IH]; intros s; simpl; [eauto|].
  destruct s as [|c' s]; [done|]. destruct (Ascii.eqb c c'); [apply IH | done].
Qed.

(** A task that contains a string contains its prefixes. *)
Lemma contains_prefix s k1 k2 :
  contains s (k1 +:+ k2) = true → contains s k1 = true.
Proof.
  apply search_from_impl. clear. intros prev s. unfold Re.lit.
  destruct (Text.strip_prefix (k1 +:+ k2) s) as [r|] eqn:E; [|done]. intros _.
  by destruct (strip_prefix_app _ _ _ _ E) as [r' ->].
Qed.

(** X18. The pattern detectors only ever name five agents: 'Frontend
    Developer', 'Backend Architect', 'UI Designer', 'Reality Checker' and
    'DevOps Engineer'.  An agent with any other name gets no pattern boost:
    its score in the analysis is its keyword score. *)
Theorem pattern_agents_known (tl : string) :
  (∀ x, x ∈ detect_multi_agent_patterns tl → x ∈ pattern_names)
  ∧ (size (detect_multi_agent_patterns tl) <= 5)%nat
  ∧ (∀ a, name a ∉ pattern_names →
          agent_score tl (detect_multi_agent_patterns tl) a
          = calculate_agent_score tl a).
Proof.
  assert (Hsub : ∀ x, x ∈ detect_multi_agent_patterns tl → x ∈ pattern_names).
  { intros x Hx. unfold detect_multi_agent_patterns in Hx.
    rewrite elem_of_list_to_set in Hx. by apply pattern_hits_sources in Hx as [? _]. }
  split; [done|]. split.
  - transitivity (size (list_to_set pattern_names : gset string)).
    + apply subseteq_size. intros x Hx. rewrite elem_of_list_to_set. by apply Hsub.
    + etransitivity; [apply size_list_to_set_le|]. done.
  - intros a Ha. unfold agent_score. cbv zeta.
    rewrite bool_decide_eq_false_2; [done|]. intros Hin. apply Ha, Hsub, Hin.
Qed.

Lemma pattern_agents_known_witness :
  agent_score "deploy the dashboard"
    (detect_multi_agent_patterns "deploy the dashboard")
    (with_category "engineering" Sample.senior)
  = calculate_agent_score "deploy the dashboard"
      (with_category "engineering" Sample.senior).
Proof.
  apply (proj2 (proj2 (pattern_agents_known "deploy the dashboard"))).
  apply (bool_decide_unpack _). vm_compute. exact I.
Defined.

(** X19. What sets the detectors off: 'DevOps Engineer' is named exactly
    when the task mentions "deploy" or "devops"; 'Reality Checker' exactly
    when it has a build word and a test word and no test artifact;
    "dashboard" names the UI Designer and the Frontend Developer;
    "full-stack" or "fullstack" names the Frontend Developer and the Backend
    Architect. *)
Theorem pattern_triggers (tl : string) :
  let patterns := detect_multi_agent_patterns tl in
  ("DevOps Engineer" ∈ patterns ↔
   contains tl "deploy" || contains tl "devops" = true)
  ∧ ("Reality Checker" ∈ patterns ↔ mentions_build_and_test tl = true)
  ∧ (contains tl "dashboard" = true →
     "UI Designer" ∈ patterns ∧ "Frontend Developer" ∈ patterns)
  ∧ (contains tl "full-stack" || contains tl "fullstack" = true →
     "Frontend Developer" ∈ patterns ∧ "Backend Architect" ∈ patterns).
Proof.
  cbv zeta. unfold detect_multi_agent_patterns. rewrite !elem_of_list_to_set.
  split; [|split; [|split]].
  - assert (Hdep : mentions_deploy tl = contains tl "deploy" || contains tl "devops").
    { unfold mentions_deploy. destruct (contains tl "deploy") eqn:E1; [done|].
      destruct (contains tl "deployment") eqn:E2; [|done]. exfalso.
      assert (contains tl "deploy" = true); [|congruence].
      by apply (contains_prefix tl "deploy" "ment"). }
    rewrite <- Hdep. split.
    + intros H. apply pattern_hits_sources in H as (_ & H & _). by apply H.
    + intros H. unfold pattern_hits. cbv zeta.
      by apply dashboard_rule_mono, design_rule_mono, deploy_rule_hits.
  - split.
    + intros H. apply pattern_hits_sources in H as (_ & _ & H). by apply H.
    + intros H. unfold pattern_hits. cbv zeta.
      by apply dashboard_rule_mono, design_rule_mono, deploy_rule_mono,
               build_test_rule_checker.
  - intros H. unfold pattern_hits. cbv zeta. by apply dashboard_rule_hits.
  - intros H. unfold pattern_hits. cbv zeta.
    destruct (full_stack_rule_hits tl [] H).
    split; by apply dashboard_rule_mono, design_rule_mono, deploy_rule_mono,
                    build_test_rule_mono, frontend_backend_rule_mono,
                    design_build_rule_mono.
Qed.

Lemma pattern_triggers_witness :
  "DevOps Engineer" ∈ detect_multi_agent_patterns "set up devops for the shop".
Proof.
  apply (proj1 (pattern_triggers "set up devops for the shop")). reflexivity.
Defined.

(** ** Case and surrounding white space *)

Lemma is_space_lower_char c : Text.is_space (Text.lower_char c) = Text.is_space c.
Proof. destruct c as [[] [] [] [] [] [] [] []]; reflexivity. Qed.

Lemma lower_empty s : Text.lower s = "" ↔ s = "".
Proof. by destruct s. Qed.

Lemma all_space_lower s : Text.all_space (Text.lower s) = Text.all_space s.
Proof.
  induction s as [|c s IH]; simpl; [done|]. by rewrite is_space_lower_char, IH.
Qed.

Lemma isspace_lower s : Text.isspace (Text.lower s) = Text.isspace s.
Proof. destruct s as [|c s]; [done|]. apply (all_space_lower (String c s)). Qed.

Lemma lstrip_lower s : Text.lstrip (Text.lower s) = Text.lower (Text.lstrip s).
Proof.
  induction s as [|c s IH]; simpl; [done|]. rewrite is_space_lower_char.
  by destruct (Text.is_space c).
Qed.

Lemma rstrip_lower s : Text.rstrip (Text.lower s) = Text.lower (Text.rstrip s).
Proof.
  induction s as [|c s IH]; simpl; [done|]. rewrite IH, is_space_lower_char.
  destruct (Text.rstrip s); simpl; [|done]. by destruct (Text.is_space c).
Qed.

Lemma strip_lower s : Text.strip (Text.lower s) = Text.lower (Text.strip s).
Proof. unfold Text.strip. by rewrite lstrip_lower, rstrip_lower. Qed.

Lemma eqb_empty_lower s : String.eqb (Text.lower s) "" = String.eqb s "".
Proof. by destruct s. Qed.

Lemma analyze_task_lower cfg s1 s2 :
  Text.lower s1 = Text.lower s2 →
  analyze_task cfg (TaskStr s1) = analyze_task cfg (TaskStr s2).
Proof. intros H. unfold analyze_task. simpl as_text. cbv zeta. by rewrite H. Qed.

(** X20. Matching is case-insensitive: two tasks that differ only in the
    case of their letters get the same analysis and the same selected
    agent. *)
Theorem matching_ignores_case (cfg : config) (s1 s2 : string) :
  Text.lower s1 = Text.lower s2 →
  analyze_task cfg (TaskStr s1) = analyze_task cfg (TaskStr s2)
  ∧ select_agent cfg (TaskStr s1) = select_agent cfg (TaskStr s2).
Proof.
  intros H. split; [by apply analyze_task_lower|].
  unfold select_agent. simpl as_text. cbv zeta.
  assert (Hs : Text.lower (Text.strip s1) = Text.lower (Text.strip s2))
    by (by rewrite <- !strip_lower, H).
  rewrite <- (eqb_empty_lower (Text.strip s1)), <- (isspace_lower (Text.strip s1)).
  rewrite <- (eqb_empty_lower (Text.strip s2)), <- (isspace_lower (Text.strip s2)).
  rewrite Hs. by rewrite (analyze_task_lower cfg _ _ Hs).
Qed.

Lemma matching_ignores_case_witness :
  select_agent Sample.catalogue (TaskStr "BUILD the REST API")
  = select_agent Sample.catalogue (TaskStr "build the rest api").
Proof.
  apply (matching_ignores_case Sample.catalogue). reflexivity.
Defined.

Lemma lstrip_shape s :
  Text.lstrip s = "" ∨ ∃ c r, Text.lstrip s = String c r ∧ Text.is_space c = false.
Proof.
  induction s as [|c s IH]; simpl; [by left|].
  destruct (Text.is_space c) eqn:E; [done|]. right. by exists c, s.
Qed.

Lemma rstrip_idempotent s : Text.rstrip (Text.rstrip s) = Text.rstrip s.
Proof.
  induction s as [|c s IH]; simpl; [done|].
  destruct (Text.rstrip s) as [|c' r] eqn:E.
  - destruct (Text.is_space c) eqn:Ec; simpl; [done|]. by rewrite Ec.
  - simpl. simpl in IH. by rewrite IH.
Qed.

Lemma rstrip_head c s :
  Text.is_space c = false → ∃ r, Text.rstrip (String c s) = String c r.
Proof.
  intros Hc. simpl. destruct (Text.rstrip s); [rewrite Hc|]; eauto.
Qed.

Lemma strip_idempotent s : Text.strip (Text.strip s) = Text.strip s.
Proof.
  unfold Text.strip. destruct (lstrip_shape s) as [->|(c & r & -> & Hc)]; [done|].
  destruct (rstrip_head c r Hc) as [r' E]. rewrite E.
  assert (El : Text.lstrip (String c r') = String c r') by (simpl; by rewrite Hc).
  rewrite El, <- E. apply rstrip_idempotent.
Qed.

(** X21. [select_agent] ignores white space around the task: the task and
    the stripped task select the same agent.  A non-string is treated as
    the empty task. *)
Theorem select_agent_ignores_padding (cfg : config) (s : string) :
  select_agent cfg (TaskStr (Text.strip s)) = select_agent cfg (TaskStr s)
  ∧ select_agent cfg NotStr = select_agent cfg (TaskStr "")
  ∧ analyze_task cfg NotStr = analyze_task cfg (TaskStr "").
Proof.
  split; [|done]. unfold select_agent. simpl as_text. cbv zeta.
  by rewrite strip_idempotent.
Qed.

(** ** The phases of a plan *)

Lemma number_from_app k l1 l2 :
  number_from k (l1 ++ l2)
  = number_from k l1 ++ number_from (k + Z.of_nat (length l1))%Z l2.
Proof.
  revert k. induction l1 as [|f l1 IH]; intros k; simpl.
  - by rewrite Z.add_0_r.
  - rewrite IH. do 3 f_equal. lia.
Qed.

Lemma number_from_length k l : length (number_from k l) = length l.
Proof. revert k. induction l as [|f l IH]; intros k; simpl; [done|]. by rewrite IH. Qed.

Lemma add_step_numbered l who act deliv dur protos :
  add_step (numbered_state l) who act deliv dur protos
  = numbered_state
      (l ++ [λ n, {| step_number := n; step_agent := who; action := act;
                     deliverable := deliv; duration := dur; protocols := protos |}]).
Proof.
  unfold numbered_state, add_step. rewrite number_from_app, length_app. simpl.
  f_equal. lia.
Qed.

Lemma existsb_false_find {A} (f : A → bool) l : existsb f l = false → find f l = None.
Proof.
  induction l as [|x l IH]; simpl; [done|]. destruct (f x); [done|]. exact IH.
Qed.

Lemma design_phase_numbered agents l :
  design_phase agents (numbered_state l)
  = numbered_state
      (l ++ match find is_designer agents with
            | Some designer => [design_step designer]
            | None => []
            end).
Proof.
  unfold design_phase. cbv zeta. destruct (existsb is_designer agents) eqn:E.
  - destruct (find is_designer agents); [apply add_step_numbered | by rewrite app_nil_r].
  - by rewrite (existsb_false_find _ _ E), app_nil_r.
Qed.

Lemma implementation_step_numbered l a :
  implementation_step (numbered_state l) a
  = numbered_state (l ++ if is_builder a then [build_step a] else []).
Proof.
  unfold implementation_step, is_builder, is_designer, is_tester.
  destruct (contains (name a) "Designer"), (contains (name a) "UX"),
    (contains (name a) "Tester"), (contains (name a) "Checker"); simpl;
    rewrite ?app_nil_r; try done; apply add_step_numbered.
Qed.

Lemma implementation_loop_numbered agents l :
  fold_left implementation_step agents (numbered_state l)
  = numbered_state (l ++ (build_step <$> filter (λ a, is_builder a) agents)).
Proof.
  revert l. induction agents as [|a agents IH]; intros l; simpl fold_left.
  - by rewrite filter_nil, app_nil_r.
  - rewrite implementation_step_numbered, IH, filter_cons, <- app_assoc.
    destruct (is_builder a).
    + rewrite decide_True by done. done.
    + rewrite decide_False by (by intros []). done.
Qed.

Lemma generate_sequence_phases primary rest text :
  generate_sequence (primary :: rest) (TaskStr text)
  = Ok (number_from 1 (phases (primary :: rest) primary text)).
Proof.
  unfold generate_sequence. cbv zeta. f_equal.
  change ([], 1%Z) with (numbered_state []).
  unfold requirements_phase. rewrite add_step_numbered.
  rewrite design_phase_numbered, implementation_loop_numbered.
  unfold testing_phase, deployment_phase, phases, wants_testing, wants_deployment.
  set (agents := primary :: rest).
  destruct (mentions_any (Text.lower text) ["build"; _; _; _]);
    destruct (mentions_any (Text.lower text) ["deploy"; _; _; _]);
    rewrite ?add_step_numbered; unfold numbered_state; simpl fst;
    rewrite <- ?app_assoc, ?app_nil_r; reflexivity.
Qed.

(** X22. The sequence of a plan is made of five phases in this order: the
    requirements step of the primary agent; a design step of the first
    designer, when one is involved; one implementation step for each agent
    that is neither designer nor tester, in the order of the agents; a
    testing step when the task has a build word, taken by the first tester
    or else the primary agent; a deployment step when the task has a deploy
    word, taken by the first DevOps agent or else the primary agent.  The
    steps are numbered from 1 in that order. *)
Theorem sequence_follows_phases (primary : agent) (rest : list agent) (text : string) :
  generate_sequence (primary :: rest) (TaskStr text)
  = Ok (number_from 1 (phases (primary :: rest) primary text)).
Proof. apply generate_sequence_phases. Qed.

(** ** The time estimate *)

Lemma Qsum_app l1 l2 : (Qsum (l1 ++ l2) == Qsum l1 + Qsum l2)%Q.
Proof.
  induction l1 as [|q l1 IH].
  - change (Qsum l2 == 0 + Qsum l2)%Q. lra.
  - change ((q :: l1) ++ l2) with (q :: (l1 ++ l2)). rewrite !Qsum_cons, IH. ring.
Qed.

Lemma Qsum_replicate n q : (Qsum (replicate n q) == inject_Z (Z.of_nat n) * q)%Q.
Proof.
  induction n as [|n IH]; [change (0 == 0 * q)%Q; ring|].
  change (replicate (S n) q) with (q :: replicate n q).
  rewrite Qsum_cons, IH, Nat2Z.inj_succ. unfold Z.succ. rewrite inject_Z_plus. ring.
Qed.

Lemma breakdown_lookup (sq : list step) (m : gmap Z string) s :
  NoDup (step_number <$> sq) → s ∈ sq →
  fold_left (λ m s, <[step_number s := duration s]> m) sq m !! step_number s
  = Some (duration s).
Proof.
  revert m. induction sq as [|x sq IH]; intros m Hnd Hs; [by apply elem_of_nil in Hs|].
  rewrite fmap_cons in Hnd. apply NoDup_cons in Hnd as [Hx Hnd]. simpl fold_left.
  apply elem_of_cons in Hs as [->|Hs]; [|by apply IH].
  clear IH. revert m. induction sq as [|y sq IH]; intros m; simpl.
  - apply lookup_insert_eq.
  - rewrite fmap_cons in Hx, Hnd. apply not_elem_of_cons in Hx as [Hxy Hx].
    apply NoDup_cons in Hnd as [_ Hnd].
    rewrite insert_insert_ne by done. by apply IH.
Qed.

Section EstimateFacts.
Variable float : string → option Q.
Hypothesis float_2 : float "2" = Some 2%Q.
Hypothesis float_3 : float "3" = Some 3%Q.
Hypothesis float_4 : float "4" = Some 4%Q.
Hypothesis float_6 : float "6" = Some 6%Q.

(** A step that always adds [h] hours. *)
Let adds (f : Z → step) (h : Q) : Prop :=
  ∀ n t, add_hours float (Some t) (f n) = Some (t + h)%Q.

Lemma requirements_step_hours p : adds (requirements_step p) 2.
Proof. intros n t. unfold add_hours. simpl. by rewrite float_2. Qed.

Lemma design_step_hours d : adds (design_step d) 4.
Proof. intros n t. unfold add_hours. simpl. by rewrite float_4. Qed.

Lemma build_step_hours a : adds (build_step a) 6.
Proof. intros n t. unfold add_hours. simpl. by rewrite float_6. Qed.

Lemma testing_step_hours a : adds (testing_step a) 3.
Proof. intros n t. unfold add_hours. simpl. by rewrite float_3. Qed.

Lemma deployment_step_hours a : adds (deployment_step a) 4.
Proof. intros n t. unfold add_hours. simpl. by rewrite float_4. Qed.

Lemma fold_hours l hs k t :
  Forall2 adds l hs →
  ∃ t', fold_left (add_hours float) (number_from k l) (Some t) = Some t'
        ∧ (t' == t + Qsum hs)%Q.
Proof.
  intros H. revert k t. induction H as [|f h l hs Hf Hl IH]; intros k t.
  - exists t. split; [done|]. simpl. lra.
  - cbn [number_from fold_left]. rewrite (Hf k t).
    destruct (IH (k + 1)%Z (t + h)%Q) as (t' & -> & Ht'). exists t'. split; [done|].
    rewrite Qsum_cons, Ht'. lra.
Qed.

Lemma phases_hours agents primary text :
  ∃ hs, Forall2 adds (phases agents primary text) hs
        ∧ (Qsum hs == planned_hours agents text)%Q.
Proof.
  exists ([2%Q]
          ++ (if existsb is_designer agents then [4%Q] else [])
          ++ replicate (length (filter (λ a, is_builder a) agents)) 6%Q
          ++ (if wants_testing text then [3%Q] else [])
          ++ (if wants_deployment text then [4%Q] else [])).
  split.
  - unfold phases. apply Forall2_app; [constructor; [apply requirements_step_hours|constructor]|].
    apply Forall2_app.
    { destruct (existsb is_designer agents) eqn:E.
      - destruct (find is_designer agents) eqn:Ef.
        + constructor; [apply design_step_hours | constructor].
        + exfalso. apply existsb_exists in E as (x & Hx & Hfx).
          by rewrite (find_none _ _ Ef x Hx) in Hfx.
      - rewrite (existsb_false_find _ _ E). constructor. }
    apply Forall2_app.
    { induction (filter (λ a, is_builder a) agents) as [|a l IH]; [constructor|].
      simpl. constructor; [apply build_step_hours | exact IH]. }
    apply Forall2_app.
    + destruct (wants_testing text); [|constructor].
      constructor; [apply testing_step_hours | constructor].
    + destruct (wants_deployment text); [|constructor].
      constructor; [apply deployment_step_hours | constructor].
  - unfold planned_hours. rewrite !Qsum_app, Qsum_replicate.
    destruct (existsb is_designer agents), (wants_testing text), (wants_deployment text);
      simpl Qsum; lra.
Qed.

Lemma estimate_time_phases primary rest text :
  ∃ sq te,
    generate_sequence (primary :: rest) (TaskStr text) = Ok sq
    ∧ estimate_time float sq = Some te
    ∧ (te_total te == planned_hours (primary :: rest) text)%Q
    ∧ te_unit te = "hours"
    ∧ ∀ s, s ∈ sq → te_breakdown te !! step_number s = Some (duration s).
Proof.
  set (sq := number_from 1 (phases (primary :: rest) primary text)).
  destruct (phases_hours (primary :: rest) primary text) as (hs & Hadds & Hsum).
  destruct (fold_hours _ hs 1 0 Hadds) as (t' & Hfold & Ht'). fold sq in Hfold.
  exists sq, {| te_total := t'; te_unit := "hours";
                te_breakdown :=
                  fold_left (λ m s, <[step_number s := duration s]> m) sq ∅ |}.
  split; [apply generate_sequence_phases|]. split.
  { unfold estimate_time. by rewrite Hfold. }
  split; [simpl te_total; rewrite Ht', Hsum; lra|]. split; [reflexivity|].
  intros s Hs. simpl te_breakdown. apply (breakdown_lookup sq ∅ s); [|exact Hs].
  pose proof (generate_sequence_inv _ _ _ (generate_sequence_phases primary rest text))
    as (Hnum & _).
  change (step_number <$> sq = seqZ 1 (Z.of_nat (length sq))) in Hnum.
  rewrite Hnum. apply NoDup_seqZ.
Qed.

End EstimateFacts.

(** X23. With [float] reading "2", "3", "4" and "6" as these numbers, the
    time estimate of a plan's sequence is 2 hours for the requirements, 4
    when a designer is involved, 6 for each implementing agent, 3 when the
    task has a build word and 4 when it has a deploy word; its unit is
    "hours" and its breakdown gives every step its own duration. *)
Theorem estimate_adds_phase_hours (float : string → option Q)
    (primary : agent) (rest : list agent) (text : string) :
  float "2" = Some 2%Q → float "3" = Some 3%Q →
  float "4" = Some 4%Q → float "6" = Some 6%Q →
  ∃ sq te,
    generate_sequence (primary :: rest) (TaskStr text) = Ok sq
    ∧ estimate_time float sq = Some te
    ∧ (te_total te == planned_hours (primary :: rest) text)%Q
    ∧ te_unit te = "hours"
    ∧ ∀ s, s ∈ sq → te_breakdown te !! step_number s = Some (duration s).
Proof. intros. by apply estimate_time_phases. Qed.

Lemma estimate_adds_phase_hours_witness :
  ∃ sq te,
    generate_sequence [with_category "engineering" Sample.backend;
                       with_category "design" Sample.designer]
      (TaskStr "Build and deploy the API") = Ok sq
    ∧ estimate_time sample_float sq = Some te
    ∧ (te_total te == 19)%Q.
Proof.
  destruct (estimate_adds_phase_hours sample_float
              (with_category "engineering" Sample.backend)
              [with_category "design" Sample.designer]
              "Build and deploy the API" eq_refl eq_refl eq_refl eq_refl)
    as (sq & te & Hsq & Hte & Htotal & _).
  exists sq, te. split; [exact Hsq|]. split; [exact Hte|].
  rewrite Htotal. vm_compute. reflexivity.
Defined.

(** ** Handoffs, continued *)

Lemma generate_handoffs_chain a rest :
  let hs := generate_handoffs (a :: rest) in
  chained (step_agent a) hs
  ∧ Some (chain_end (step_agent a) hs) = step_agent <$> last (a :: rest)
  ∧ Forall (λ h, from_agent h ≠ to_agent h) hs
  ∧ (length hs <= length rest)%nat
  ∧ (hs = [] ↔ Forall (λ s, step_agent s = step_agent a) rest).
Proof.
  cbv zeta. revert a. induction rest as [|b rest IH]; intros a.
  { repeat split; (done || constructor). }
  rewrite generate_handoffs_cons. destruct (IH b) as (Hch & Hend & Hne & Hlen & Hnil).
  rewrite last_cons_cons. case_bool_decide as Hab; simpl.
  - split; [done|]. split; [done|]. split; [by constructor|]. split; [lia|].
    split; [done|]. intros Hall. apply Forall_cons in Hall as [? _]. congruence.
  - rewrite Hab. split; [done|]. split; [done|].
    split; [done|]. split; [lia|]. rewrite Hnil, Forall_cons.
    split; [intros H; by split | by intros [_ H]].
Qed.

(** X24. The handoffs of a sequence form a chain: the first leaves the agent
    of the first step, each next one leaves the agent the one before
    arrived at, and the last arrives at the agent of the last step.  No
    handoff goes from an agent to itself, there are fewer handoffs than
    steps, and there is none exactly when one agent takes every step. *)
Theorem handoffs_form_a_chain (a : step) (rest : list step) :
  let hs := generate_handoffs (a :: rest) in
  chained (step_agent a) hs
  ∧ Some (chain_end (step_agent a) hs) = step_agent <$> last (a :: rest)
  ∧ Forall (λ h, from_agent h ≠ to_agent h) hs
  ∧ (length hs <= length rest)%nat
  ∧ (hs = [] ↔ Forall (λ s, step_agent s = step_agent a) rest).
Proof. apply generate_handoffs_chain. Qed.

Lemma handoffs_form_a_chain_witness :
  let senior := with_category "engineering" Sample.senior in
  generate_handoffs [requirements_step senior 1; build_step senior 2] = [].
Proof.
  intros senior.
  apply (proj2 (proj2 (proj2 (proj2
           (handoffs_form_a_chain (requirements_step senior 1) [build_step senior 2]))))).
  repeat constructor.
Defined.

Lemma get_success_criteria_generic a b :
  ∃ extra,
    get_success_criteria a b
    = ["All deliverables completed and documented";
       "Code committed to git repository"] ++ extra
    ∧ (length extra <= 6)%nat.
Proof.
  unfold get_success_criteria. cbv zeta.
  destruct (contains (Text.lower (action a)) "requirements"),
    (contains (Text.lower (action a)) "design"),
    (contains (Text.lower (action a)) "implement");
    eexists; (split; [reflexivity | simpl; lia]).
Qed.

(** X25. Every handoff carries at least two and at most eight success
    criteria, and the first two are always the generic ones: deliverables
    completed and documented, code committed to the repository. *)
Theorem handoff_criteria (sq : list step) :
  Forall
    (λ h, ∃ extra,
        success_criteria h
        = ["All deliverables completed and documented";
           "Code committed to git repository"] ++ extra
        ∧ (length extra <= 6)%nat)
    (generate_handoffs sq).
Proof.
  rewrite generate_handoffs_spec. apply Forall_forall.
  intros h (a & b & _ & _ & ->)%handoffs_spec_elem_of.
  apply get_success_criteria_generic.
Qed.

(** ** Parallel work, continued *)

(** X26. [_identify_parallel_work] proposes at most two groups and never a
    group of fewer than two names.  It proposes none when fewer than three
    agents are involved and no agent is named after "Frontend" or none
    after "Backend".  A second kind of group, proposed from three agents on,
    lists names of the involved agents in their order. *)
Theorem parallel_groups_shape (l : list agent) :
  let groups := identify_parallel_work l in
  (length groups <= 2)%nat
  ∧ Forall (λ g, (2 <= length g)%nat) groups
  ∧ Forall (λ g, g = ["Frontend Developer"; "Backend Architect"]
                 ∨ g `sublist_of` (name <$> l)) groups
  ∧ ((length l < 3)%nat →
     existsb (λ a, contains (name a) "Frontend") l
     && existsb (λ a, contains (name a) "Backend") l = false →
     groups = []).
Proof.
  cbv zeta. unfold identify_parallel_work. cbv zeta.
  set (impl := name <$> filter _ l).
  assert (Hsub : impl `sublist_of` (name <$> l)) by apply fmap_sublist, sublist_filter.
  destruct (_ && _); cbn [app];
    destruct (Nat.leb_spec 3 (length l)); try destruct (Nat.leb_spec 2 (length impl));
    (split; [simpl; lia|]); (split; [repeat constructor; simpl; lia|]);
    (split; [repeat constructor; auto|]); intros; (done || lia).
Qed.

Lemma parallel_groups_shape_witness :
  identify_parallel_work [with_category "engineering" Sample.senior;
                          with_category "design" Sample.designer] = [].
Proof.
  apply (parallel_groups_shape [with_category "engineering" Sample.senior;
                                with_category "design" Sample.designer]).
  - simpl. lia.
  - reflexivity.
Defined.

(** ** The agents of a plan *)

Lemma select_agent_elem_of cfg task a :
  select_agent cfg task = Ok a → a ∈ get_all_agents cfg.
Proof.
  unfold select_agent. cbv zeta. destruct (_ || _); [apply get_default_agent_elem_of|].
  destruct (analyze_task cfg _) as [r|] eqn:Hr; [|done]. simpl.
  rewrite primary_agent_cases.
  apply analyze_task_required_elem_of in Hr.
  destruct (required_agents r) as [|x l]; [apply get_default_agent_elem_of|].
  intros [= <-]. by apply Forall_cons in Hr as [? _].
Qed.

Lemma planner_agents_shape cfg task l :
  planner_agents cfg task = Ok l →
  (1 <= length l <= 5)%nat ∧ Forall (λ a, a ∈ get_all_agents cfg) l.
Proof.
  unfold planner_agents. destruct (analyze_task cfg task) as [r|] eqn:Hr; [|done]. simpl.
  destruct (is_multi_agent r).
  - intros [= <-]. split; [by apply analyze_task_sizes in Hr as [? _]|].
    by apply analyze_task_required_elem_of in Hr.
  - destruct (select_agent cfg task) as [a|] eqn:Ha; [|done]. intros [= <-].
    split; [simpl; lia|]. constructor; [|constructor]. by apply select_agent_elem_of in Ha.
Qed.

Lemma get_agent_responsibilities_length a : length (get_agent_responsibilities a) = 3%nat.
Proof.
  unfold get_agent_responsibilities. cbv zeta.
  repeat match goal with |- context [if ?b then _ else _] => destruct b end; done.
Qed.

(** X27. A plan details between one and five agents, each an entry of the
    catalogue with its name and category, its category for a role, and
    three responsibilities. *)
Theorem plan_agents_shape (cfg : config) (task : task_arg) (p : plan) :
  generate_plan cfg task = Ok p →
  (1 <= length (agents p) <= 5)%nat
  ∧ Forall (λ d, ∃ a, a ∈ get_all_agents cfg
                      ∧ ad_name d = name a ∧ ad_category d = category a
                      ∧ ad_role d = category a
                      ∧ length (ad_responsibilities d) = 3%nat) (agents p).
Proof.
  intros (l & sq & Hl & _ & ->)%generate_plan_inv. simpl.
  apply planner_agents_shape in Hl as [Hlen Hall]. rewrite length_fmap.
  split; [done|]. apply Forall_fmap. eapply Forall_impl; [exact Hall|].
  intros a Ha. exists a. simpl. repeat split; try done.
  apply get_agent_responsibilities_length.
Qed.

Lemma plan_agents_shape_witness :
  ∃ p, generate_plan Sample.crowded (TaskStr Sample.crowded_task) = Ok p
       ∧ (1 <= length (agents p) <= 5)%nat.
Proof.
  eexists. split; [vm_compute; reflexivity|].
  apply (plan_agents_shape Sample.crowded (TaskStr Sample.crowded_task)).
  vm_compute. reflexivity.
Defined.



(** ** The protocol bookkeeping *)

Lemma flag_mark key states task_id task_id' key' :
  Protocols.flag (Protocols.mark key states task_id) task_id' key'
  = if bool_decide (task_id = task_id' ∧ key = key') then true
    else Protocols.flag states task_id' key'.
Proof.
  unfold Protocols.flag, Protocols.mark. cbv zeta.
  destruct (decide (task_id = task_id')) as [<-|Hne].
  - rewrite lookup_alter_eq.
    destruct (states !! task_id) as [state|] eqn:E.
    + rewrite E. simpl. destruct (decide (key = key')) as [<-|Hk].
      * rewrite lookup_insert_eq. by rewrite bool_decide_eq_true_2.
      * rewrite lookup_insert_ne by done.
        rewrite bool_decide_eq_false_2; [done | by intros [_ ?]].
    + rewrite lookup_insert_eq. simpl. destruct (decide (key = key')) as [<-|Hk].
      * rewrite lookup_insert_eq. by rewrite bool_decide_eq_true_2.
      * rewrite lookup_insert_ne by done.
        rewrite bool_decide_eq_false_2; [done | by intros [_ ?]].
  - rewrite lookup_alter_ne by done.
    rewrite bool_decide_eq_false_2 by (by intros [? _]).
    destruct (states !! task_id); [done|]. by rewrite lookup_insert_ne.
Qed.

(** X29. Implementation is allowed for a task exactly when its tests are
    written and approved and the reflection is complete; whether the
    requirements were gathered plays no part.  A mark sets one flag of one
    task and leaves every other flag of every task as it was. *)
Theorem implementation_gate (states : gmap string (gmap string bool))
    (task_id : string) :
  (Protocols.allowed (Protocols.check_can_implement states task_id) = true ↔
   Protocols.flag states task_id "tests_written" = true
   ∧ Protocols.flag states task_id "tests_approved" = true
   ∧ Protocols.flag states task_id "reflection_complete" = true)
  ∧ (∀ key task_id' key',
       Protocols.flag (Protocols.mark key states task_id) task_id' key'
       = if bool_decide (task_id = task_id' ∧ key = key') then true
         else Protocols.flag states task_id' key')
  ∧ Protocols.allowed
      (Protocols.check_can_implement
         (Protocols.mark_reflection_complete
            (Protocols.mark_tests_approved
               (Protocols.mark_tests_written states task_id) task_id) task_id)
         task_id) = true.
Proof.
  assert (Hgate : ∀ σ,
    Protocols.allowed (Protocols.check_can_implement σ task_id) = true ↔
    Protocols.flag σ task_id "tests_written" = true
    ∧ Protocols.flag σ task_id "tests_approved" = true
    ∧ Protocols.flag σ task_id "reflection_complete" = true).
  { intros σ. unfold Protocols.check_can_implement. cbv zeta.
    destruct (Protocols.flag σ task_id "tests_written"),
      (Protocols.flag σ task_id "tests_approved"),
      (Protocols.flag σ task_id "reflection_complete"),
      (Protocols.flag σ task_id "requirements_gathered"); simpl; intuition congruence. }
  split; [apply Hgate|]. split; [intros; apply flag_mark|].
  apply Hgate. unfold Protocols.mark_reflection_complete, Protocols.mark_tests_approved,
    Protocols.mark_tests_written.
  rewrite !flag_mark. repeat split; repeat case_bool_decide; try done;
    exfalso; intuition congruence.
Qed.

Lemma implementation_gate_witness :
  Protocols.allowed
    (Protocols.check_can_implement
       (Protocols.mark_requirements_gathered ∅ "task-1") "task-1") = false.
Proof.
  destruct (Protocols.allowed _) eqn:E; [|reflexivity].
  apply (proj1 (implementation_gate _ "task-1")) in E as (E & _).
  revert E. vm_compute. discriminate.
Defined.

(** X30. [check_compliance] always checks 11 rules and splits them into
    passed and failed.  The passed ones are the flags set among the six it
    reads, one more when the virtual environment is ready, and two of the
    four rules it does not examine; so between 2 and 9 rules pass and the
    compliance percentage never reaches 100. *)
Theorem compliance_bounds (venv_ready : bool)
    (states : gmap string (gmap string bool)) (task_id : string) :
  let c := Protocols.check_compliance venv_ready states task_id in
  let set key := if Protocols.flag states task_id key then 1%Z else 0%Z in
  Protocols.rules_checked c = 11%Z
  ∧ (Protocols.rules_passed c + Protocols.rules_failed c = 11)%Z
  ∧ Protocols.rules_passed c
    = (2 + set "requirements_gathered" + set "tests_written" + set "tests_approved"
       + set "implementation_complete" + set "todo_updated"
       + set "git_checks_complete" + (if venv_ready then 1 else 0))%Z
  ∧ (2 <= Protocols.rules_passed c <= 9)%Z
  ∧ (Protocols.compliance_percentage c < 100)%Q.
Proof.
  cbv zeta. unfold Protocols.check_compliance. cbv zeta.
  destruct (Protocols.flag states task_id "requirements_gathered"),
    (Protocols.flag states task_id "tests_written"),
    (Protocols.flag states task_id "tests_approved"),
    (Protocols.flag states task_id "implementation_complete"),
    (Protocols.flag states task_id "todo_updated"),
    (Protocols.flag states task_id "git_checks_complete"), venv_ready;
    vm_compute; repeat split; congruence.
Qed.
